(** * Concolic session of the Chef Python interpreter

    A shallow embedding of [Chef/pychef/src/ConcolicSession.cc]: the naming
    protocol of concolic buffers ([MakeConcolicBuffer] / [DecodeArrayName]),
    the size policy ([CheckObjectSize] / [ConstrainObjectSize]) and the
    per-type marking functions ([MakeConcolicInt], [MakeConcolicSequence],
    [MakeConcolicString], ...), together with the guest side of the S2E
    interface they call ([Include/s2e.h]). *)

From Stdlib Require Import String Ascii ZArith List Bool Arith Lia.
From ExtLib Require Import Structures.Monad.
Import ListNotations.
Import MonadNotation.

Local Open Scope string_scope.
Local Open Scope monad_scope.

(** ** Abnormal termination

    The C++ code can stop in three ways that are not a return: a failed
    [assert] (abort; assertions are taken as compiled in), an uncaught
    [std::out_of_range] thrown by [std::string::at] or [std::string::substr],
    and a dereference of a pointer that designates no object of the expected
    type. *)

Inductive failure : Type :=
| AssertionFailed (msg : string)
| OutOfRange
| InvalidPointer.

Inductive outcome (A : Type) : Type :=
| Ok (a : A)
| Fail (f : failure).

Arguments Ok {A} a.
Arguments Fail {A} f.

#[global] Instance Monad_outcome : Monad outcome :=
  {| ret := fun _ a => Ok a;
     bind := fun _ _ m k => match m with Ok a => k a | Fail f => Fail f end |}.

(** [assert(cond && "msg")] *)
Definition assert (cond : bool) (msg : string) : outcome unit :=
  if cond then Ok tt else Fail (AssertionFailed msg).

(** ** Strings

    [std::string] is a [string]; positions ([size_t]) are [nat], and
    [std::string::npos] is [None]. *)

Module StdString.

(** [s.rfind(c)]: the position of the last occurrence of [c]. *)
Fixpoint rfind (c : ascii) (s : string) : option nat :=
  match s with
  | EmptyString => None
  | String a s' =>
      match rfind c s' with
      | Some i => Some (S i)
      | None => if Ascii.eqb a c then Some 0%nat else None
      end
  end.

(** [s.substr(pos, len)], and [s.substr(pos)] when [len] is [None]; throws
    when [pos > s.size()], and stops at the end of [s]. *)
Definition substr (s : string) (pos : nat) (len : option nat) : outcome string :=
  if Nat.ltb (String.length s) pos then Fail OutOfRange
  else Ok (substring pos (match len with
                          | Some n => n
                          | None => String.length s - pos
                          end) s).

(** [s.at(pos)]: bounds-checked access. *)
Definition at_ (s : string) (pos : nat) : outcome ascii :=
  match String.get pos s with
  | Some c => Ok c
  | None => Fail OutOfRange
  end.

(** [c] occurs in [s]. *)
Fixpoint occurs (c : ascii) (s : string) : bool :=
  match s with
  | EmptyString => false
  | String a s' => Ascii.eqb a c || occurs c s'
  end.

End StdString.

(** ** C strings

    A [const char *] is the address of bytes; the string it denotes stops
    before the first NUL byte. *)

Definition NUL : ascii := Ascii.zero.

Fixpoint c_str (bytes : string) : string :=
  match bytes with
  | EmptyString => EmptyString
  | String a s' => if Ascii.eqb a NUL then EmptyString else String a (c_str s')
  end.

(** The bytes hold no NUL, so the C string is all of them. *)
Definition is_c_string (s : string) : bool := negb (StdString.occurs NUL s).

(** ** Type characters

    The format character [T] of a buffer name [<base>.<T>#<name>], as passed
    by the marking functions to [MakeConcolicBuffer] and switched on by
    [ConvertBufferValue]. *)

Inductive KindTag : Type :=
| Integer               (* 'i' *)
| PlatformSizeInteger   (* 'l', Py_ssize_t *)
| ByteString            (* 's', regular string *)
| UnicodeString         (* 'u' *)
| ByteArray.            (* 'b' *)

Definition tag_char (t : KindTag) : ascii :=
  match t with
  | Integer => "i"
  | PlatformSizeInteger => "l"
  | ByteString => "s"
  | UnicodeString => "u"
  | ByteArray => "b"
  end%char.

(** ** Names of concolic buffers *)

(** The name [MakeConcolicBuffer] builds:
    [snprintf(obj_name, 256, "%s.%c#%s", base_name, type, name)].  At most 255
    bytes are stored before the terminating NUL, and the engine reads
    [obj_name] as a C string. *)
Definition obj_name (base_name : string) (type : ascii) (name : string) : string :=
  c_str (substring 0 255
           (c_str base_name ++ "." ++ String type ("#" ++ c_str name))).

(** The three results [DecodeArrayName] writes through its reference
    parameters. *)
Record assignment_name : Type := mkAssgn {
  assgn_key : string;
  assgn_value : string;
  assgn_type : ascii
}.

Definition DecodeArrayName (name : string) (out : assignment_name)
  : outcome assignment_name :=
  match StdString.rfind "." name with
  | None => Ok (mkAssgn name (assgn_value out) (assgn_type out))
  | Some dot_pos =>
      key <- StdString.substr name 0 (Some dot_pos) ;;
      value <- StdString.substr name (dot_pos + 1) None ;;
      c1 <- StdString.at_ value 1 ;;
      if Ascii.eqb c1 "#" then
        type <- StdString.at_ value 0 ;;
        assert (Nat.ltb 2 (String.length value)) "Invalid value encoding" ;;
        value' <- StdString.substr value 2 None ;;
        Ok (mkAssgn key value' type)
      else
        Ok (mkAssgn key value "b")
  end.

(** [DecodeAssignment] declares the three locals, [assgn_type] initialised to
    ['b'], and passes them to [DecodeArrayName]. *)
Definition decode (name : string) : outcome assignment_name :=
  DecodeArrayName name (mkAssgn "" "" "b").

(** ** Machine integers

    The sizes and bounds are signed machine integers; they are [Z] here, and
    the conversions the code performs are written out. *)

Definition wrap_signed (bits : Z) (z : Z) : Z :=
  ((z + 2 ^ (bits - 1)) mod 2 ^ bits - 2 ^ (bits - 1))%Z.

(** Conversion to [int], as for the [int size] parameter of
    [MakeConcolicBuffer]. *)
Definition to_int (z : Z) : Z := wrap_signed 32 z.

(** The object sizes the code takes with [sizeof]. *)
Class Platform : Type := {
  sizeof_long : Z;
  sizeof_Py_ssize_t : Z;
  sizeof_Py_UNICODE : Z
}.

Definition to_Py_ssize_t {platform : Platform} (z : Z) : Z :=
  wrap_signed (8 * sizeof_Py_ssize_t) z.

(** ** Python objects *)

(** Modelled from the spec: the interpreter's object layout ([Python.h]) is
    not part of the sources at hand.  A [PyObject *] is the address of an
    object of the heap; of each object the runtime type and the fields the
    session reads (content, length) are kept. *)
Definition ref : Type := nat.

Inductive PyBody : Type :=
| PyNoneObject
| PyIntObject (ob_ival : Z)
| PyStringObject (ob_sval : string)
| PyUnicodeObject (str : list Z)
| PyListObject (ob_item : list ref)
| PyDictObject (ma_table : list (ref * ref))
| PyTupleObject (ob_item : list ref)
| PyOtherObject.

Record PyObject : Type := mkObject {
  ob_refcnt : Z;
  ob_body : PyBody
}.

(** Modelled from the spec: the address of the [None] singleton, the
    None-equivalent value. *)
Definition Py_None : ref := 0%nat.

(** The exceptions the session raises. *)
Inductive PyExc : Type :=
| PyExc_RuntimeError
| PyExc_ValueError
| PyExc_TypeError
| PyExc_MemoryError.

(** ** The engine, as seen from the guest

    What is made concolic is a buffer of the guest: the local [long value] of
    [MakeConcolicInt], the copy of the characters of a string, or the size
    field of an object.  Each is given with its concrete content, which the
    engine keeps. *)

Inductive buffer : Type :=
| LocalLong (value : Z)
| CharData (str_data : string)
| UnicodeData (uni_data : list Z)
| SizeField (obj : ref) (size : Z).

(** The expressions passed to [s2e_assume]: a comparison of a value read from
    a concolic buffer with a bound. *)
Inductive expr : Type :=
| Ge (x : buffer) (bound : Z)
| Le (x : buffer) (bound : Z)
| Lt (x : buffer) (bound : Z).

(** The calls received by the engine. *)
Inductive event : Type :=
| make_concolic (buf : buffer) (size : Z) (name : string)
| assume (expression : expr).

(** ** State *)

(** The state of the guest.  The interpreter's flag [Py_EnableS2EFlag] is
    declared in [pydebug.h], which is not part of the sources at hand; it and
    the version the engine reports are what [s2e_version] reads. *)
Record World : Type := mkWorld {
  Py_EnableS2EFlag : bool;       (* the interpreter's flag, [pydebug.h] *)
  s2e_engine_version : Z;        (* what the version instruction yields *)
  heap : list PyObject;
  alloc_faults : list bool;      (* the coming allocations that fail *)
  curexc : option (PyExc * string);   (* the error indicator *)
  s2e_log : list event           (* the calls issued so far, oldest first *)
}.

Definition set_heap (h : list PyObject) (w : World) : World :=
  mkWorld (Py_EnableS2EFlag w) (s2e_engine_version w) h (alloc_faults w)
          (curexc w) (s2e_log w).

Definition set_alloc_faults (l : list bool) (w : World) : World :=
  mkWorld (Py_EnableS2EFlag w) (s2e_engine_version w) (heap w) l
          (curexc w) (s2e_log w).

Definition set_curexc (e : option (PyExc * string)) (w : World) : World :=
  mkWorld (Py_EnableS2EFlag w) (s2e_engine_version w) (heap w) (alloc_faults w)
          e (s2e_log w).

Definition log_event (e : event) (w : World) : World :=
  mkWorld (Py_EnableS2EFlag w) (s2e_engine_version w) (heap w) (alloc_faults w)
          (curexc w) (s2e_log w ++ [e]).

(** Computations of the guest: they change the state and return, or stop with
    a [failure]; what was issued to the engine before a failure stays
    issued. *)
Definition M (A : Type) : Type := World -> outcome A * World.

#[global] Instance Monad_M : Monad M :=
  {| ret := fun _ a w => (Ok a, w);
     bind := fun _ _ m k w =>
               match m w with
               | (Ok a, w') => k a w'
               | (Fail f, w') => (Fail f, w')
               end |}.

Definition lift {A : Type} (o : outcome A) : M A := fun w => (o, w).

Definition assertM (cond : bool) (msg : string) : M unit := lift (assert cond msg).

(** A null [PyObject *]. *)
Definition NULL : option ref := None.

(** ** The guest side of the engine interface ([s2e.h]) *)

(** [s2e_version]: 0 when the interpreter's flag is off, else what the engine
    reports, which is 0 when running without the engine. *)
Definition s2e_version : M Z :=
  fun w => (Ok (if Py_EnableS2EFlag w then s2e_engine_version w else 0%Z), w).

Definition s2e_make_concolic (buf : buffer) (size : Z) (name : string) : M unit :=
  fun w => (Ok tt, log_event (make_concolic buf size name) w).

(** [s2e_assume] returns at once when the interpreter's flag is off. *)
Definition s2e_assume (expression : expr) : M unit :=
  fun w => if Py_EnableS2EFlag w
           then (Ok tt, log_event (assume expression) w)
           else (Ok tt, w).

(** ** The interpreter's objects and memory *)

(** Modelled from the spec: access to an object through its address (the host
    value model's byte-view and size access). *)
Definition deref (p : ref) : M PyObject :=
  fun w => match nth_error (heap w) p with
           | Some o => (Ok o, w)
           | None => (Fail InvalidPointer, w)
           end.

(** Modelled from the spec: the runtime kind tag query behind the macros
    [PyInt_Check], [PyString_Check], ... of [Python.h]. *)
Definition type_check (test : PyBody -> bool) (p : ref) : M bool :=
  o <- deref p ;; ret (test (ob_body o)).

Definition PyInt_Check : ref -> M bool :=
  type_check (fun b => match b with PyIntObject _ => true | _ => false end).
Definition PyString_Check : ref -> M bool :=
  type_check (fun b => match b with PyStringObject _ => true | _ => false end).
Definition PyUnicode_Check : ref -> M bool :=
  type_check (fun b => match b with PyUnicodeObject _ => true | _ => false end).
Definition PyList_Check : ref -> M bool :=
  type_check (fun b => match b with PyListObject _ => true | _ => false end).
Definition PyDict_Check : ref -> M bool :=
  type_check (fun b => match b with PyDictObject _ => true | _ => false end).
Definition PyTuple_Check : ref -> M bool :=
  type_check (fun b => match b with PyTupleObject _ => true | _ => false end).

(** Modelled from the spec: reading a field (content, length) through a
    pointer cast to the object's type. *)
Definition field {A : Type} (get : PyBody -> option A) (p : ref) : M A :=
  o <- deref p ;;
  match get (ob_body o) with
  | Some a => ret a
  | None => lift (Fail InvalidPointer)
  end.

(** [((PyIntObject* )p)->ob_ival] *)
Definition int_ob_ival : ref -> M Z :=
  field (fun b => match b with PyIntObject v => Some v | _ => None end).
(** [((PyStringObject* )p)->ob_sval] *)
Definition string_ob_sval : ref -> M string :=
  field (fun b => match b with PyStringObject s => Some s | _ => None end).
(** [((PyStringObject* )p)->ob_size] *)
Definition string_ob_size : ref -> M Z :=
  field (fun b => match b with
                  | PyStringObject s => Some (Z.of_nat (String.length s))
                  | _ => None
                  end).
(** [((PyUnicodeObject* )p)->str] *)
Definition unicode_str : ref -> M (list Z) :=
  field (fun b => match b with PyUnicodeObject u => Some u | _ => None end).
(** [((PyUnicodeObject* )p)->length] *)
Definition unicode_length : ref -> M Z :=
  field (fun b => match b with
                  | PyUnicodeObject u => Some (Z.of_nat (List.length u))
                  | _ => None
                  end).
(** [((PyListObject* )p)->ob_size] *)
Definition list_ob_size : ref -> M Z :=
  field (fun b => match b with
                  | PyListObject l => Some (Z.of_nat (List.length l))
                  | _ => None
                  end).
(** [((PyDictObject* )p)->ma_used] *)
Definition dict_ma_used : ref -> M Z :=
  field (fun b => match b with
                  | PyDictObject t => Some (Z.of_nat (List.length t))
                  | _ => None
                  end).
(** [((PyTupleObject* )p)->ob_size] *)
Definition tuple_ob_size : ref -> M Z :=
  field (fun b => match b with
                  | PyTupleObject l => Some (Z.of_nat (List.length l))
                  | _ => None
                  end).

Fixpoint list_update {A : Type} (i : nat) (x : A) (l : list A) : list A :=
  match l, i with
  | [], _ => []
  | _ :: l', O => x :: l'
  | a :: l', S i' => a :: list_update i' x l'
  end.

(** Modelled from the spec: the shared-ownership increment, the macro
    [Py_INCREF] of [Python.h]. *)
Definition Py_INCREF (p : ref) : M unit :=
  fun w => match nth_error (heap w) p with
           | Some o =>
               (Ok tt,
                set_heap (list_update p (mkObject (ob_refcnt o + 1) (ob_body o))
                            (heap w)) w)
           | None => (Fail InvalidPointer, w)
           end.

(** Modelled from the spec: [PyErr_SetString] sets the error indicator that
    goes with a NULL result. *)
Definition PyErr_SetString (exc : PyExc) (msg : string) : M unit :=
  fun w => (Ok tt, set_curexc (Some (exc, msg)) w).

(** Modelled from the spec: the interpreter's allocator and object
    constructors ([PyMem_Malloc], [PyMem_Free], [PyErr_NoMemory],
    [PyString_FromStringAndSize], [PyUnicode_FromUnicode], [PyInt_FromLong])
    are not part of the sources at hand.  The spec gives them as the host
    capabilities allocate-and-copy and construct-value-from-bytes, which
    either fail with an allocation error or yield a new object; an allocation
    fails when the head of [alloc_faults] says so. *)
Definition alloc_fault : M bool :=
  fun w => match alloc_faults w with
           | [] => (Ok false, w)
           | b :: l => (Ok b, set_alloc_faults l w)
           end.

(** Modelled from the spec: a constructed object is new, at an address no
    object of the heap has, with one owner. *)
Definition new_object (b : PyBody) : M ref :=
  fun w => (Ok (List.length (heap w)), set_heap (heap w ++ [mkObject 1 b]) w).

(** Modelled from the spec: [PyErr_NoMemory] reports the allocation error and
    is NULL. *)
Definition PyErr_NoMemory : M (option ref) :=
  PyErr_SetString PyExc_MemoryError "" ;; ret NULL.

(** Modelled from the spec: [PyMem_Malloc], the allocation of the private
    copy; the result says whether the block was obtained (a non-null
    pointer). *)
Definition PyMem_Malloc (nbytes : Z) : M bool :=
  fault <- alloc_fault ;; ret (negb fault).

(** Modelled from the spec: [PyMem_Free], the release of the transient
    buffer. *)
Definition PyMem_Free : M unit := ret tt.

(** Modelled from the spec: construct-value-from-bytes, which yields a new
    object or fails with an allocation error. *)
Definition construct (b : PyBody) : M (option ref) :=
  fault <- alloc_fault ;;
  if (fault : bool) then PyErr_NoMemory
  else r <- new_object b ;; ret (Some r).

(** Modelled from the spec: the new integer object holds the value. *)
Definition PyInt_FromLong (ival : Z) : M (option ref) :=
  construct (PyIntObject ival).

(** Modelled from the spec: the new string holds the first [size] characters
    of the buffer. *)
Definition PyString_FromStringAndSize (str : string) (size : Z) : M (option ref) :=
  construct (PyStringObject (substring 0 (Z.to_nat size) str)).

(** Modelled from the spec: the new unicode string holds the first [size]
    code units of the buffer. *)
Definition PyUnicode_FromUnicode (u : list Z) (size : Z) : M (option ref) :=
  construct (PyUnicodeObject (firstn (Z.to_nat size) u)).

(** ** The session *)

Section ConcolicSession.

Context {platform : Platform}.

(** The session's member [max_symbolic_size_], declared in
    [ConcolicSession.h], which is not part of the sources at hand: the
    session-wide configured bound on the size of symbolic containers. *)
Variable max_symbolic_size_ : Z.

Definition MakeConcolicBuffer (buf : buffer) (size : Z)
           (base_name name : string) (type : ascii) : M unit :=
  s2e_make_concolic buf (to_int size) (obj_name base_name type name).

(** 0 when the size is accepted, -1 when it is not. *)
Definition CheckObjectSize (size max_size min_size : Z) : outcome Z :=
  assert (min_size >=? 0)%Z "min_size >= 0" ;;
  if (max_size <? 0)%Z then
    ret 0%Z
  else if (max_size =? 0)%Z then
    ret (if (size >=? min_size)%Z then 0 else -1)%Z
  else
    ret (if (size >=? min_size)%Z && (size <=? max_size)%Z then 0 else -1)%Z.

Definition ConstrainObjectSize (size : buffer) (max_size min_size : Z) : M unit :=
  assertM (min_size >=? 0)%Z "min_size >= 0" ;;
  (if (max_size >? 0)%Z then s2e_assume (Le size max_size) else ret tt) ;;
  s2e_assume (Ge size min_size).

Definition MakeConcolicInt (target : ref) (name : string)
           (max_value min_value : Z) : M (option ref) :=
  is_int <- PyInt_Check target ;;
  assertM is_int "PyInt_Check(target)" ;;
  version <- s2e_version ;;
  if (version =? 0)%Z then
    PyErr_SetString PyExc_RuntimeError "Not in symbolic mode" ;;
    ret NULL
  else
    value <- int_ob_ival target ;;
    if (max_value >=? min_value)%Z
       && ((value <? min_value)%Z || (value >? max_value)%Z) then
      PyErr_SetString PyExc_ValueError "Incompatible value constraints" ;;
      ret NULL
    else
      MakeConcolicBuffer (LocalLong value) sizeof_long name "value" "i" ;;
      (if (max_value >=? min_value)%Z then
         s2e_assume (Ge (LocalLong value) min_value) ;;
         s2e_assume (Le (LocalLong value) max_value)
       else ret tt) ;;
      PyInt_FromLong value.

Definition MakeConcolicString (target : ref) (name : string)
           (max_size min_size : Z) : M (option ref) :=
  is_string <- PyString_Check target ;;
  assertM is_string "PyString_Check(target)" ;;
  ob_size <- string_ob_size target ;;
  ob_sval <- string_ob_sval target ;;
  check <- lift (CheckObjectSize ob_size max_size min_size) ;;
  if (check <? 0)%Z then
    PyErr_SetString PyExc_ValueError "Incompatible size constraints" ;;
    ret NULL
  else
    str_data <- PyMem_Malloc ob_size ;;
    if negb str_data then PyErr_NoMemory
    else
      let str_data := substring 0 (Z.to_nat ob_size) ob_sval in  (* memcpy *)
      MakeConcolicBuffer (CharData str_data) ob_size name "value" "s" ;;
      result <- PyString_FromStringAndSize str_data ob_size ;;
      match result with
      | None => PyMem_Free ;; ret NULL
      | Some str_result =>
          (if (max_size >=? 0)%Z then
             size <- string_ob_size str_result ;;
             MakeConcolicBuffer (SizeField str_result size) sizeof_Py_ssize_t
                                name "size" "l" ;;
             ConstrainObjectSize (SizeField str_result size) max_size min_size
           else ret tt) ;;
          PyMem_Free ;;
          ret result
      end.

Definition MakeConcolicUnicode (target : ref) (name : string)
           (max_size min_size : Z) : M (option ref) :=
  is_unicode <- PyUnicode_Check target ;;
  assertM is_unicode "PyUnicode_Check(target)" ;;
  length <- unicode_length target ;;
  str <- unicode_str target ;;
  check <- lift (CheckObjectSize length max_size min_size) ;;
  if (check <? 0)%Z then
    PyErr_SetString PyExc_ValueError "Incompatible size constraints" ;;
    ret NULL
  else
    let buf_size := to_Py_ssize_t (length * sizeof_Py_UNICODE) in
    uni_data <- PyMem_Malloc buf_size ;;
    if negb uni_data then PyErr_NoMemory
    else
      let uni_data :=
        firstn (Z.to_nat (buf_size / sizeof_Py_UNICODE)) str in  (* memcpy *)
      MakeConcolicBuffer (UnicodeData uni_data) buf_size name "value" "u" ;;
      result <- PyUnicode_FromUnicode uni_data length ;;
      match result with
      | None => PyMem_Free ;; ret NULL
      | Some uni_result =>
          (if (max_size >=? 0)%Z then
             size <- unicode_length uni_result ;;
             MakeConcolicBuffer (SizeField uni_result size) sizeof_Py_ssize_t
                                name "size" "l" ;;
             ConstrainObjectSize (SizeField uni_result size) max_size min_size
           else ret tt) ;;
          PyMem_Free ;;
          ret result
      end.

Definition MakeConcolicList (target : ref) (name : string)
           (max_size min_size : Z) : M (option ref) :=
  is_list <- PyList_Check target ;;
  assertM is_list "PyList_Check(target)" ;;
  ob_size <- list_ob_size target ;;
  check <- lift (CheckObjectSize ob_size max_size min_size) ;;
  if (check <? 0)%Z then
    PyErr_SetString PyExc_ValueError "Incompatible size constraints" ;;
    ret NULL
  else
    (if (max_size >=? 0)%Z then
       MakeConcolicBuffer (SizeField target ob_size) sizeof_Py_ssize_t
                          name "size" "l" ;;
       ConstrainObjectSize (SizeField target ob_size) max_size min_size
     else ret tt) ;;
    Py_INCREF target ;;
    ret (Some target).

Definition MakeConcolicDict (target : ref) (name : string) : M (option ref) :=
  is_dict <- PyDict_Check target ;;
  assertM is_dict "PyDict_Check(target)" ;;
  ma_used <- dict_ma_used target ;;
  MakeConcolicBuffer (SizeField target ma_used) sizeof_Py_ssize_t
                     name "size" "l" ;;
  s2e_assume (Ge (SizeField target ma_used) 0) ;;
  s2e_assume (Lt (SizeField target ma_used) max_symbolic_size_) ;;
  Py_INCREF target ;;
  ret (Some target).

Definition MakeConcolicTuple (target : ref) (name : string) : M (option ref) :=
  is_tuple <- PyTuple_Check target ;;
  assertM is_tuple "PyTuple_Check(target)" ;;
  ob_size <- tuple_ob_size target ;;
  MakeConcolicBuffer (SizeField target ob_size) sizeof_Py_ssize_t
                     name "size" "l" ;;
  s2e_assume (Ge (SizeField target ob_size) 0) ;;
  s2e_assume (Lt (SizeField target ob_size) max_symbolic_size_) ;;
  Py_INCREF target ;;
  ret (Some target).

Definition MakeConcolicSequence (target : ref) (name : string)
           (max_size min_size : Z) : M (option ref) :=
  version <- s2e_version ;;
  if (version =? 0)%Z then
    PyErr_SetString PyExc_RuntimeError "Not in symbolic mode" ;;
    ret NULL
  else if (min_size <? 0)%Z then
    PyErr_SetString PyExc_ValueError "Minimum size cannot be negative" ;;
    ret NULL
  else if Nat.eqb target Py_None then
    PyErr_SetString PyExc_ValueError "Cannot make symbolic None" ;;
    ret NULL
  else
    is_string <- PyString_Check target ;;
    if (is_string : bool) then MakeConcolicString target name max_size min_size
    else
      is_unicode <- PyUnicode_Check target ;;
      if (is_unicode : bool) then MakeConcolicUnicode target name max_size min_size
      else
        is_list <- PyList_Check target ;;
        if (is_list : bool) then MakeConcolicList target name max_size min_size
        else
          is_dict <- PyDict_Check target ;;
          if (is_dict : bool) then MakeConcolicDict target name
          else
            is_tuple <- PyTuple_Check target ;;
            if (is_tuple : bool) then MakeConcolicTuple target name
            else
              PyErr_SetString PyExc_TypeError "Unsupported type" ;;
              ret NULL.

End ConcolicSession.

(** The name under which [MakeConcolicBuffer] registers the buffer of role
    [qualifier] and type [tag] of the variable [base]. *)
Definition encode (base qualifier : string) (tag : KindTag) : string :=
  obj_name base (tag_char tag) qualifier.

(** [n] copies of [c]. *)
Fixpoint replicate (n : nat) (c : ascii) : string :=
  match n with
  | O => EmptyString
  | S n' => String c (replicate n' c)
  end.

(** What [DecodeArrayName] does once the name is split at its last dot. *)
Definition decode_remainder (key rest : string) : outcome assignment_name :=
  c1 <- StdString.at_ rest 1 ;;
  if Ascii.eqb c1 "#" then
    type <- StdString.at_ rest 0 ;;
    assert (Nat.ltb 2 (String.length rest)) "Invalid value encoding" ;;
    value' <- StdString.substr rest 2 None ;;
    Ok (mkAssgn key value' type)
  else
    Ok (mkAssgn key rest "b").

(** ** Preconditions of the marking functions *)

(** The engine reports itself active: [s2e_version()] is not 0. *)
Definition engine_active (w : World) : bool :=
  Py_EnableS2EFlag w && negb (s2e_engine_version w =? 0)%Z.

(** The next allocation of the interpreter succeeds. *)
Definition next_alloc_ok (w : World) : bool := negb (hd false (alloc_faults w)).

(** The next [n] allocations of the interpreter succeed. *)
Definition allocs_ok (n : nat) (w : World) : bool :=
  forallb negb (firstn n (alloc_faults w)).

(** [target] points to an object with body [b]. *)
Definition points_to (w : World) (target : ref) (b : PyBody) : Prop :=
  exists refcnt, nth_error (heap w) target = Some (mkObject refcnt b).

(** ** What a complete marking issues *)

(** The registration of a size field and the constraints on it, in the order
    [ConstrainObjectSize] issues them. *)
Definition size_sequence {platform : Platform} (obj : ref) (size : Z)
           (name : string) (max_size min_size : Z) : list event :=
  [make_concolic (SizeField obj size) (to_int sizeof_Py_ssize_t)
                 (encode name "size" PlatformSizeInteger)]
  ++ (if (max_size >? 0)%Z
      then [assume (Le (SizeField obj size) max_size)]
      else [])
  ++ [assume (Ge (SizeField obj size) min_size)].

(** The exception set in the error indicator, if any. *)
Definition raised (w : World) : option PyExc := option_map fst (curexc w).

(** An LP64 platform with four-byte [Py_UNICODE]. *)
Definition lp64 : Platform :=
  {| sizeof_long := 8; sizeof_Py_ssize_t := 8; sizeof_Py_UNICODE := 4 |}.

(** A world with the engine active, [None] at its address and a few objects
    of each type. *)
Definition sample_world : World :=
  {| Py_EnableS2EFlag := true;
     s2e_engine_version := 1;
     heap := [mkObject 100 PyNoneObject;
              mkObject 1 (PyStringObject "hello");
              mkObject 1 (PyIntObject 7);
              mkObject 1 (PyListObject [1; 2]%nat);
              mkObject 1 (PyDictObject [(1, 2)]%nat);
              mkObject 1 (PyTupleObject [2; 2; 1]%nat);
              mkObject 1 (PyUnicodeObject [104; 105]%Z);
              mkObject 1 PyOtherObject];
     alloc_faults := [];
     curexc := None;
     s2e_log := [] |}.

(** ** Marking requests *)

(** A call of one of the session's marking functions. *)
Inductive request : Type :=
| MarkInt (target : ref) (name : string) (max_value min_value : Z)
| MarkSequence (target : ref) (name : string) (max_size min_size : Z)
| MarkString (target : ref) (name : string) (max_size min_size : Z)
| MarkUnicode (target : ref) (name : string) (max_size min_size : Z)
| MarkList (target : ref) (name : string) (max_size min_size : Z)
| MarkDict (target : ref) (name : string)
| MarkTuple (target : ref) (name : string).

Definition mark {platform : Platform} (max_symbolic_size_ : Z) (r : request)
  : M (option ref) :=
  match r with
  | MarkInt target name max_value min_value =>
      MakeConcolicInt target name max_value min_value
  | MarkSequence target name max_size min_size =>
      MakeConcolicSequence max_symbolic_size_ target name max_size min_size
  | MarkString target name max_size min_size =>
      MakeConcolicString target name max_size min_size
  | MarkUnicode target name max_size min_size =>
      MakeConcolicUnicode target name max_size min_size
  | MarkList target name max_size min_size =>
      MakeConcolicList target name max_size min_size
  | MarkDict target name => MakeConcolicDict max_symbolic_size_ target name
  | MarkTuple target name => MakeConcolicTuple max_symbolic_size_ target name
  end.

(** The function [MakeConcolicSequence] hands an object of body [b] to. *)
Definition dispatch (b : PyBody) (target : ref) (name : string)
           (max_size min_size : Z) : option request :=
  match b with
  | PyStringObject _ => Some (MarkString target name max_size min_size)
  | PyUnicodeObject _ => Some (MarkUnicode target name max_size min_size)
  | PyListObject _ => Some (MarkList target name max_size min_size)
  | PyDictObject _ => Some (MarkDict target name)
  | PyTupleObject _ => Some (MarkTuple target name)
  | _ => None
  end.

(** The size in bytes [MakeConcolicUnicode] computes for the code units [u],
    the code units its [memcpy] copies, and those of the object it
    constructs from the copy. *)
Definition unicode_buf_size {platform : Platform} (u : list Z) : Z :=
  to_Py_ssize_t (Z.of_nat (List.length u) * sizeof_Py_UNICODE).

Definition unicode_copy {platform : Platform} (u : list Z) : list Z :=
  firstn (Z.to_nat (unicode_buf_size u / sizeof_Py_UNICODE)) u.

Definition unicode_result {platform : Platform} (u : list Z) : list Z :=
  firstn (Z.to_nat (Z.of_nat (List.length u))) (unicode_copy u).

(** The registration of the content of an object: the value of an integer,
    the copy of the characters of a string; nothing for a container. *)
Definition value_registration {platform : Platform} (b : PyBody)
           (name : string) : list event :=
  match b with
  | PyIntObject value =>
      [make_concolic (LocalLong value) (to_int sizeof_long)
                     (encode name "value" Integer)]
  | PyStringObject s =>
      [make_concolic (CharData s) (to_int (Z.of_nat (String.length s)))
                     (encode name "value" ByteString)]
  | PyUnicodeObject u =>
      [make_concolic (UnicodeData (unicode_copy u)) (to_int (unicode_buf_size u))
                     (encode name "value" UnicodeString)]
  | _ => []
  end.

(** The registration of the number of elements of a dictionary or tuple and
    the two constraints on it. *)
Definition count_sequence {platform : Platform} (max_symbolic_size_ : Z)
           (obj : ref) (count : Z) (name : string) : list event :=
  [make_concolic (SizeField obj count) (to_int sizeof_Py_ssize_t)
                 (encode name "size" PlatformSizeInteger);
   assume (Ge (SizeField obj count) 0);
   assume (Lt (SizeField obj count) max_symbolic_size_)].

(** What follows the registration of the content in a complete marking of an
    object of body [b]; [fresh] is the address of the object a string marking
    constructs. *)
Definition rest_sequence {platform : Platform} (max_symbolic_size_ : Z)
           (r : request) (b : PyBody) (fresh : ref) : list event :=
  match r, b with
  | MarkInt _ _ max_value min_value, PyIntObject value =>
      if (max_value >=? min_value)%Z
      then [assume (Ge (LocalLong value) min_value);
            assume (Le (LocalLong value) max_value)]
      else []
  | MarkString _ name max_size min_size, PyStringObject s =>
      if (max_size >=? 0)%Z
      then size_sequence fresh (Z.of_nat (String.length s)) name max_size min_size
      else []
  | MarkUnicode _ name max_size min_size, PyUnicodeObject u =>
      if (max_size >=? 0)%Z
      then size_sequence fresh (Z.of_nat (List.length (unicode_result u)))
                         name max_size min_size
      else []
  | MarkList target name max_size min_size, PyListObject l =>
      if (max_size >=? 0)%Z
      then size_sequence target (Z.of_nat (List.length l)) name max_size min_size
      else []
  | MarkDict target name, PyDictObject t =>
      count_sequence max_symbolic_size_ target (Z.of_nat (List.length t)) name
  | MarkTuple target name, PyTupleObject l =>
      count_sequence max_symbolic_size_ target (Z.of_nat (List.length l)) name
  | _, _ => []
  end.

Definition request_target (r : request) : ref :=
  match r with
  | MarkInt t _ _ _ | MarkSequence t _ _ _ | MarkString t _ _ _
  | MarkUnicode t _ _ _ | MarkList t _ _ _ | MarkDict t _ | MarkTuple t _ => t
  end.

Definition request_name (r : request) : string :=
  match r with
  | MarkInt _ n _ _ | MarkSequence _ n _ _ | MarkString _ n _ _
  | MarkUnicode _ n _ _ | MarkList _ n _ _ | MarkDict _ n | MarkTuple _ n => n
  end.

(** The request that does the marking: the one [MakeConcolicSequence]
    dispatches to, or the request itself. *)
Definition resolve (r : request) (b : PyBody) : request :=
  match r with
  | MarkSequence target name max_size min_size =>
      match dispatch b target name max_size min_size with
      | Some r' => r'
      | None => r
      end
  | _ => r
  end.

(** The body of the object a request is about. *)
Definition target_body (r : request) (w : World) : PyBody :=
  match nth_error (heap w) (request_target r) with
  | Some o => ob_body o
  | None => PyOtherObject
  end.

(** The content registration of a request in a world. *)
Definition value_sequence {platform : Platform} (r : request) (w : World)
  : list event :=
  value_registration (target_body r w) (request_name r).

(** The complete sequence of a request in a world: the content, then the size
    and its constraints where the marking function issues them. *)
Definition full_sequence {platform : Platform} (max_symbolic_size_ : Z)
           (r : request) (w : World) : list event :=
  (value_sequence r w
   ++ rest_sequence max_symbolic_size_ (resolve r (target_body r w))
        (target_body r w) (List.length (heap w)))%list.

(** The request is for [MakeConcolicInt], which constructs the integer it
    returns after the whole sequence. *)
Definition constructs_last (r : request) : bool :=
  match r with
  | MarkInt _ _ _ _ => true
  | _ => false
  end.

(** The request is for [MakeConcolicString] or [MakeConcolicUnicode], which
    construct the object they return between the registration of the content
    and that of the size. *)
Definition constructs_midway (r : request) : bool :=
  match r with
  | MarkString _ _ _ _ | MarkUnicode _ _ _ _ => true
  | _ => false
  end.

(** The next allocation of the interpreter succeeds and the one after it
    fails: for [MakeConcolicString] and [MakeConcolicUnicode], the private
    copy is allocated and the new string is not constructed. *)
Definition second_alloc_fails (w : World) : bool :=
  match alloc_faults w with
  | false :: true :: _ => true
  | _ => false
  end.

(** How a marking request can end, by what was issued to the engine: nothing;
    the full sequence, with the object returned or, failing the construction
    of the integer, NULL and [MemoryError]; or the registration of the content
    alone, with NULL and [MemoryError], the private copy having been allocated
    and the construction of the string having failed.  And a request for
    [MakeConcolicString] or [MakeConcolicUnicode] issues nothing and returns
    no object when the next allocation, that of the private copy if it comes
    to it, fails. *)
Definition marking_outcome {platform : Platform} (max_symbolic_size_ : Z)
           (r : request) (w : World) : Prop :=
  let o := fst (mark max_symbolic_size_ r w) in
  let w' := snd (mark max_symbolic_size_ r w) in
  (s2e_log w' = s2e_log w
   \/ (s2e_log w' = (s2e_log w ++ full_sequence max_symbolic_size_ r w)%list
       /\ ((exists p, o = Ok (Some p))
           \/ (o = Ok NULL /\ raised w' = Some PyExc_MemoryError
               /\ constructs_last r = true
               /\ next_alloc_ok w = false)))
   \/ (s2e_log w' = (s2e_log w ++ value_sequence r w)%list
       /\ o = Ok NULL /\ raised w' = Some PyExc_MemoryError
       /\ constructs_midway (resolve r (target_body r w)) = true
       /\ second_alloc_fails w = true))
  /\ (constructs_midway (resolve r (target_body r w)) = true ->
      next_alloc_ok w = false ->
      s2e_log w' = s2e_log w /\ forall p, o <> Ok (Some p)).

(** The sample world when the interpreter's second allocation fails. *)
Definition faulty_world : World := set_alloc_faults [false; true] sample_world.

(** ** The concrete side of the assumptions *)

(** The concrete value of what is read from a concolic buffer of integer
    type. *)
Definition buffer_value (x : buffer) : option Z :=
  match x with
  | LocalLong value => Some value
  | SizeField _ size => Some size
  | CharData _ | UnicodeData _ => None
  end.

(** The concrete [int] the guest passes to [s2e_assume] is not 0: the
    comparison holds of the concrete value. *)
Definition expr_holds (e : expr) : bool :=
  match e with
  | Ge x bound =>
      match buffer_value x with Some v => (v >=? bound)%Z | None => false end
  | Le x bound =>
      match buffer_value x with Some v => (v <=? bound)%Z | None => false end
  | Lt x bound =>
      match buffer_value x with Some v => (v <? bound)%Z | None => false end
  end.

(** The expressions assumed in a sequence of calls. *)
Fixpoint assumptions (l : list event) : list expr :=
  match l with
  | [] => []
  | assume e :: l' => e :: assumptions l'
  | make_concolic _ _ _ :: l' => assumptions l'
  end.

(** The marking functions that check the bounds they then assume. *)
Definition checks_bounds (r : request) : bool :=
  match r with
  | MarkInt _ _ _ _ | MarkString _ _ _ _ | MarkList _ _ _ _ => true
  | _ => false
  end.

(** The sample world with the interpreter's flag off. *)
Definition idle_world : World :=
  mkWorld false (s2e_engine_version sample_world) (heap sample_world)
          (alloc_faults sample_world) (curexc sample_world)
          (s2e_log sample_world).

(** ** Ranges of symbolic integers ([s2e.h]) *)

(** A call either returns or ends in [s2e_kill_state], which terminates the
    current state. *)
Inductive state_result (A : Type) : Type :=
| Returns (a : A)
| Killed (status : Z) (message : string).

Arguments Returns {A} a.
Arguments Killed {A} status message.

(** Conversion to [unsigned]. *)
Definition to_unsigned (z : Z) : Z := (z mod 2 ^ 32)%Z.

(** [s2e_range(start, end, name)]; [x] is the content the engine gives the
    buffer [&x] that [s2e_make_symbolic] makes symbolic, on the path
    followed. *)
Definition s2e_range (start end_ : Z) (x : Z) : state_result Z :=
  if (start >=? end_)%Z then
    Killed 1 "s2e_range: invalid range"
  else if (to_int (start + 1) =? end_)%Z then
    Returns start
  else if (start =? 0)%Z then
    if (to_unsigned x >=? to_unsigned end_)%Z
    then Killed 0 "s2e_range creating a constraint..."
    else Returns x
  else
    if (x <? start)%Z || (x >=? end_)%Z
    then Killed 0 "s2e_range creating a constraint..."
    else Returns x.

(** The values of an [int]. *)
Definition is_int (z : Z) : Prop := (- 2 ^ 31 <= z < 2 ^ 31)%Z.

(** ** Assignments returned by the engine

    [ConvertBufferValue] and [DecodeAssignment] build Python objects out of
    the bytes the engine assigns to the concolic buffers and file them in a
    dictionary of dictionaries. *)

Module Decoder.

(** Modelled from the spec: the objects [DecodeAssignment] handles (the
    interpreter's object layout is not part of the sources at hand).  A
    dictionary holds its entries as pairs of a key object and a value object.
    Ownership counts are not kept in this store, where no address is ever
    reused: [Py_INCREF] and [Py_XDECREF] leave it as it is. *)
Inductive Object : Type :=
| IntObject (ob_ival : Z)
| StringObject (ob_sval : string)
| UnicodeObject (str : list Z)
| ByteArrayObject (ob_bytes : string)
| DictObject (ma_table : list (ref * ref))
| OtherObject.

Record Store : Type := mkStore {
  objects : list Object;
  faults : list bool        (* the coming allocations that fail *)
}.

Definition D (A : Type) : Type := Store -> outcome A * Store.

#[global] Instance Monad_D : Monad D :=
  {| ret := fun _ a st => (Ok a, st);
     bind := fun _ _ m k st =>
               match m st with
               | (Ok a, st') => k a st'
               | (Fail f, st') => (Fail f, st')
               end |}.

Definition lift {A : Type} (o : outcome A) : D A := fun st => (o, st).

(** Modelled from the spec: an allocation fails when the head of [faults]
    says so. *)
Definition alloc_fault : D bool :=
  fun st => match faults st with
            | [] => (Ok false, st)
            | b :: l => (Ok b, mkStore (objects st) l)
            end.

(** Modelled from the spec: a constructor yields a new object, or NULL when
    its allocation fails. *)
Definition construct (o : Object) : D (option ref) :=
  fault <- alloc_fault ;;
  if (fault : bool) then ret NULL
  else fun st => (Ok (Some (List.length (objects st))),
                  mkStore (objects st ++ [o]) (faults st)).

(** *** Bytes *)

Definition byte_value (c : ascii) : Z := Z.of_N (N_of_ascii c).

(** The unsigned integer whose little-endian representation is [bytes]; the
    guest is an x86 machine. *)
Fixpoint le_unsigned (bytes : string) : Z :=
  match bytes with
  | EmptyString => 0
  | String c rest => byte_value c + 256 * le_unsigned rest
  end%Z.

(** The signed integer read through a pointer to the bytes, as by
    [*((int32_t* )value.data())]. *)
Definition le_signed (bytes : string) : Z :=
  wrap_signed (8 * Z.of_nat (String.length bytes)) (le_unsigned bytes).

(** The [n] first code units of [unit_size] bytes each. *)
Fixpoint code_units (unit_size n : nat) (bytes : string) : list Z :=
  match n with
  | O => []
  | S n' =>
      le_unsigned (substring 0 unit_size bytes)
      :: code_units unit_size n'
           (substring unit_size (String.length bytes - unit_size) bytes)
  end.

(** *** Constructors *)

(** Modelled from the spec: the constructors of [Python.h] used by
    [ConvertBufferValue] and [DecodeAssignment]. *)
Definition PyInt_FromLong (ival : Z) : D (option ref) :=
  construct (IntObject ival).

(** Modelled from the spec: as [PyInt_FromLong], for a [Py_ssize_t]. *)
Definition PyInt_FromSsize_t (ival : Z) : D (option ref) :=
  construct (IntObject ival).

(** Modelled from the spec: the new string holds the [size] first bytes. *)
Definition PyString_FromStringAndSize (data : string) (size : nat)
  : D (option ref) :=
  construct (StringObject (substring 0 size data)).

(** Modelled from the spec: the new string holds the C string, the bytes
    before the first NUL. *)
Definition PyString_FromString (data : string) : D (option ref) :=
  construct (StringObject (c_str data)).

(** Modelled from the spec: the new unicode string holds the [size] first
    code units of the buffer. *)
Definition PyUnicode_FromUnicode {platform : Platform} (data : string) (size : Z)
  : D (option ref) :=
  construct (UnicodeObject
               (code_units (Z.to_nat sizeof_Py_UNICODE) (Z.to_nat size) data)).

(** Modelled from the spec: the new byte array holds the [size] first
    bytes. *)
Definition PyByteArray_FromStringAndSize (data : string) (size : nat)
  : D (option ref) :=
  construct (ByteArrayObject (substring 0 size data)).

(** Modelled from the spec: a new, empty dictionary. *)
Definition PyDict_New : D (option ref) := construct (DictObject []).

(** *** Dictionaries keyed by strings *)

(** The characters of the string at an address. *)
Definition string_at (st : Store) (p : ref) : option string :=
  match nth_error (objects st) p with
  | Some (StringObject s) => Some s
  | _ => None
  end.

(** The entries of the dictionary at an address. *)
Definition dict_at (st : Store) (p : ref) : option (list (ref * ref)) :=
  match nth_error (objects st) p with
  | Some (DictObject table) => Some table
  | _ => None
  end.

(** Modelled from the spec: keys are compared by their characters.  The
    value filed under the key [key]. *)
Fixpoint find_entry (st : Store) (key : string) (table : list (ref * ref))
  : option ref :=
  match table with
  | [] => None
  | (k, v) :: rest =>
      match string_at st k with
      | Some s => if String.eqb s key then Some v else find_entry st key rest
      | None => find_entry st key rest
      end
  end.

(** Modelled from the spec: filing [value] under [key] overwrites the value
    of the entry with that key, or adds the entry. *)
Fixpoint set_entry (st : Store) (key : string) (key_obj value : ref)
         (table : list (ref * ref)) : list (ref * ref) :=
  match table with
  | [] => [(key_obj, value)]
  | (k, v) :: rest =>
      match string_at st k with
      | Some s =>
          if String.eqb s key then (k, value) :: rest
          else (k, v) :: set_entry st key key_obj value rest
      | None => (k, v) :: set_entry st key key_obj value rest
      end
  end.

(** Modelled from the spec: [PyDict_Contains]: 1 or 0, and -1 when the key
    is no string; the object is read as a dictionary without a check. *)
Definition PyDict_Contains (op key : ref) : D Z :=
  fun st =>
    match dict_at st op with
    | Some table =>
        match string_at st key with
        | Some s =>
            (Ok (match find_entry st s table with Some _ => 1 | None => 0 end)%Z,
             st)
        | None => (Ok (-1)%Z, st)
        end
    | None => (Fail InvalidPointer, st)
    end.

(** Modelled from the spec: [PyDict_GetItem]: the value filed under the key,
    or NULL. *)
Definition PyDict_GetItem (op key : ref) : D (option ref) :=
  fun st =>
    match dict_at st op, string_at st key with
    | Some table, Some s => (Ok (find_entry st s table), st)
    | _, _ => (Ok NULL, st)
    end.

(** Modelled from the spec: [PyDict_SetItem]: 0, or -1 when the object is no
    dictionary, the key no string, or the allocation of the entry fails; a
    NULL dictionary or value is dereferenced. *)
Definition PyDict_SetItem (dict : option ref) (key : ref) (value : option ref)
  : D Z :=
  match dict, value with
  | None, _ | _, None => lift (Fail InvalidPointer)
  | Some op, Some v =>
      fun st =>
        match dict_at st op, string_at st key with
        | Some table, Some s =>
            match alloc_fault st with
            | (Ok false, st') =>
                (Ok 0%Z,
                 mkStore (list_update op (DictObject (set_entry st s key v table))
                                      (objects st'))
                         (faults st'))
            | (_, st') => (Ok (-1)%Z, st')
            end
        | _, _ => (Ok (-1)%Z, st)
        end
  end.

(** *** The two functions *)

Section Decoding.

Context {platform : Platform}.

Definition ConvertBufferValue (value : string) (assgn_type : ascii)
  : D (option ref) :=
  if Ascii.eqb assgn_type "i" then
    lift (assert (Z.of_nat (String.length value) =? 4)%Z
                 "Invalid content size") ;;
    PyInt_FromLong (le_signed value)
  else if Ascii.eqb assgn_type "l" then
    lift (assert (Z.of_nat (String.length value) =? sizeof_Py_ssize_t)%Z
                 "Invalid content size") ;;
    PyInt_FromSsize_t (le_signed value)
  else if Ascii.eqb assgn_type "s" then
    PyString_FromStringAndSize value (String.length value)
  else if Ascii.eqb assgn_type "u" then
    PyUnicode_FromUnicode value
      (Z.of_nat (String.length value) / sizeof_Py_UNICODE)
  else if Ascii.eqb assgn_type "b" then
    PyByteArray_FromStringAndSize value (String.length value)
  else
    lift (assert false "Invalid assignment type") ;;
    ret NULL.

(** The result is 0, or -1 when a step failed ([goto done]). *)
Definition DecodeAssignment (assgndict : ref) (name value_buff : string)
  : D Z :=
  assgn <- lift (DecodeArrayName name (mkAssgn "" "" "b")) ;;
  assgn_key_obj <- PyString_FromString (assgn_key assgn) ;;
  assgn_value_obj <- PyString_FromString (assgn_value assgn) ;;
  match assgn_key_obj, assgn_value_obj with
  | Some key_obj, Some value_obj =>
      value <- ConvertBufferValue value_buff (assgn_type assgn) ;;
      match value with
      | None => ret (-1)%Z
      | Some _ =>
          has_key <- PyDict_Contains assgndict key_obj ;;
          if (has_key <? 0)%Z then ret (-1)%Z
          else
            valuedict <-
              (if (has_key =? 0)%Z then
                 valuedict <- PyDict_New ;;
                 set <- PyDict_SetItem (Some assgndict) key_obj valuedict ;;
                 if (set <? 0)%Z then ret None else ret (Some valuedict)
               else
                 valuedict <- PyDict_GetItem assgndict key_obj ;;
                 lift (assert (match valuedict with
                               | Some _ => true
                               | None => false
                               end) "valuedict != NULL") ;;
                 ret (Some valuedict)) ;;
            match valuedict with
            | None => ret (-1)%Z
            | Some valuedict =>
                set <- PyDict_SetItem valuedict value_obj value ;;
                if (set <? 0)%Z then ret (-1)%Z else ret 0%Z
            end
      end
  | _, _ => ret (-1)%Z
  end.

End Decoding.

(** *** Reading the tree *)

(** The object filed under [key] in a table. *)
Definition filed_object (st : Store) (table : list (ref * ref)) (key : string)
  : option Object :=
  match find_entry st key table with
  | Some v => nth_error (objects st) v
  | None => None
  end.

(** The object filed under [qualifier] in the dictionary filed under [key]
    in the dictionary at [assgndict]. *)
Definition tree_lookup (st : Store) (assgndict : ref) (key qualifier : string)
  : option Object :=
  match dict_at st assgndict with
  | Some table =>
      match filed_object st table key with
      | Some (DictObject sub) => filed_object st sub qualifier
      | _ => None
      end
  | None => None
  end.

(** The object [ConvertBufferValue] constructs for the type characters it
    knows and contents of the right size. *)
Definition converted {platform : Platform} (value : string) (assgn_type : ascii)
  : option Object :=
  if Ascii.eqb assgn_type "i" then
    if (Z.of_nat (String.length value) =? 4)%Z
    then Some (IntObject (le_signed value)) else None
  else if Ascii.eqb assgn_type "l" then
    if (Z.of_nat (String.length value) =? sizeof_Py_ssize_t)%Z
    then Some (IntObject (le_signed value)) else None
  else if Ascii.eqb assgn_type "s" then Some (StringObject value)
  else if Ascii.eqb assgn_type "u" then
    Some (UnicodeObject
            (code_units (Z.to_nat sizeof_Py_UNICODE)
               (Z.to_nat (Z.of_nat (String.length value) / sizeof_Py_UNICODE))
               value))
  else if Ascii.eqb assgn_type "b" then Some (ByteArrayObject value)
  else None.

(** The little-endian representation of [z] on [n] bytes. *)
Fixpoint le_bytes (n : nat) (z : Z) : string :=
  match n with
  | O => EmptyString
  | S n' => String (ascii_of_N (Z.to_N (z mod 256))) (le_bytes n' (z / 256))
  end.

(** All the keys of a table are strings. *)
Definition string_keys (st : Store) (table : list (ref * ref)) : Prop :=
  Forall (fun kv => exists s, string_at st (fst kv) = Some s) table.

(** A leaf: an object that is no dictionary. *)
Definition leaf_at (st : Store) (p : ref) : Prop :=
  exists o, nth_error (objects st) p = Some o /\ forall t, o <> DictObject t.

(** The dictionary at [assgndict] is a tree as [DecodeAssignment] builds
    them: its keys are strings; its values are dictionaries, different from
    one another and from [assgndict], with strings as keys and leaves as
    values. *)
Definition well_formed (st : Store) (assgndict : ref) : Prop :=
  exists table,
    dict_at st assgndict = Some table
    /\ string_keys st table
    /\ NoDup (map snd table)
    /\ Forall (fun kv =>
                 snd kv <> assgndict
                 /\ exists sub,
                     dict_at st (snd kv) = Some sub
                     /\ string_keys st sub
                     /\ Forall (fun kv2 => leaf_at st (snd kv2)) sub) table.

(** An empty assignment dictionary and nothing else. *)
Definition empty_tree : Store := mkStore [DictObject []] [].

(** [st'] has the strings of [st], at the same addresses. *)
Definition keeps_strings (st st' : Store) : Prop :=
  forall p s, string_at st p = Some s -> string_at st' p = Some s.

(** [st'] has the objects of [st] at their addresses, the one at [changed]
    apart. *)
Definition preserves (st st' : Store) (changed : ref) : Prop :=
  forall p, p <> changed -> p < List.length (objects st) ->
            nth_error (objects st') p = nth_error (objects st) p.

(** The effect of a decoding that succeeds. *)
Definition decoded_into (st st' : Store) (d : ref) (key q : string)
           (obj : Object) : Prop :=
  faults st' = []
  /\ well_formed st' d
  /\ tree_lookup st' d key q = Some obj
  /\ (forall key' q', key' <> key \/ q' <> q ->
                      tree_lookup st' d key' q' = tree_lookup st d key' q').


(** A tree with the integer 7 filed under ["x"] in the dictionary of
    ["a"]. *)
Definition sample_tree : Store :=
  mkStore [DictObject [(1, 4)]; StringObject "a"; StringObject "x";
           IntObject 7; DictObject [(2, 3)]] [].

End Decoder.

(** * Properties *)

(** ** The naming protocol on examples *)

Example encode_req_body_value :
  encode "req.body" "value" ByteString = "req.body.s#value".
Proof. reflexivity. Qed.

Example decode_req_body_size :
  decode "req.body.l#size" = Ok (mkAssgn "req.body" "size" "l").
Proof. reflexivity. Qed.

Example decode_a_xyz : decode "a.xyz" = Ok (mkAssgn "a" "xyz" "b").
Proof. reflexivity. Qed.

Example decode_no_dot : decode "abc" = Ok (mkAssgn "abc" "" "b").
Proof. reflexivity. Qed.

(** ** Strings *)

Lemma substring_prefix (a b : string) :
  substring 0 (String.length a) (a ++ b) = a.
Proof.
  induction a as [|c a IH]; simpl.
  - destruct b; reflexivity.
  - now rewrite IH.
Qed.

Lemma substring_all (s : string) : substring 0 (String.length s) s = s.
Proof.
  induction s as [|c s IH]; simpl; [reflexivity | now rewrite IH].
Qed.

Lemma substring_skip (a b : string) (n : nat) :
  substring (String.length a) n (a ++ b) = substring 0 n b.
Proof.
  induction a as [|c a IH]; simpl; [reflexivity | exact IH].
Qed.

Lemma substring_long (s : string) (n : nat) :
  String.length s <= n -> substring 0 n s = s.
Proof.
  revert n; induction s as [|c s IH]; intros n Hn; simpl in *.
  - destruct n; reflexivity.
  - destruct n as [|n]; [lia|]. rewrite IH by lia. reflexivity.
Qed.

Lemma length_append (a b : string) :
  String.length (a ++ b) = String.length a + String.length b.
Proof.
  induction a as [|c a IH]; simpl; [reflexivity | now rewrite IH].
Qed.

Lemma occurs_append (c : ascii) (a b : string) :
  StdString.occurs c (a ++ b) = StdString.occurs c a || StdString.occurs c b.
Proof.
  induction a as [|x a IH]; simpl; [reflexivity|].
  rewrite IH. now rewrite orb_assoc.
Qed.

Lemma rfind_absent (c : ascii) (s : string) :
  StdString.occurs c s = false -> StdString.rfind c s = None.
Proof.
  induction s as [|a s IH]; simpl; [reflexivity|].
  intros H. apply orb_false_iff in H as [Ha Hs].
  rewrite (IH Hs), Ha. reflexivity.
Qed.

(** The last occurrence is the one after which the character is absent. *)
Lemma rfind_last (c : ascii) (a b : string) :
  StdString.occurs c b = false ->
  StdString.rfind c (a ++ String c b) = Some (String.length a).
Proof.
  intros Hb. induction a as [|x a IH]; simpl.
  - rewrite (rfind_absent _ _ Hb), Ascii.eqb_refl. reflexivity.
  - rewrite IH. reflexivity.
Qed.

Lemma c_str_id (s : string) : is_c_string s = true -> c_str s = s.
Proof.
  unfold is_c_string. induction s as [|a s IH]; simpl; [reflexivity|].
  intros H. apply negb_true_iff, orb_false_iff in H as [Ha Hs].
  rewrite Ha, IH; [reflexivity|]. now rewrite Hs.
Qed.

(** ** Decoding *)

Lemma DecodeArrayName_split (key rest : string) (out : assignment_name) :
  StdString.occurs "." rest = false ->
  DecodeArrayName (key ++ String "." rest) out = decode_remainder key rest.
Proof.
  intros Hrest. unfold DecodeArrayName, decode_remainder.
  rewrite (rfind_last _ key rest Hrest).
  unfold StdString.substr at 1. simpl Nat.ltb. cbv iota.
  rewrite substring_prefix.
  unfold StdString.substr at 1.
  rewrite length_append. simpl String.length.
  replace (Nat.ltb (String.length key + S (String.length rest))
                   (String.length key + 1))
    with false by (symmetry; apply Nat.ltb_ge; lia).
  replace (String.length key + 1) with (String.length (key ++ ".")%string)
    by (rewrite length_append; reflexivity).
  replace (key ++ String "." rest)%string with ((key ++ ".") ++ rest)%string
    by (clear; induction key; simpl; congruence).
  rewrite substring_skip, length_append. simpl String.length.
  replace (String.length key + S (String.length rest) - (String.length key + 1))
    with (String.length rest) by lia.
  rewrite substring_all. reflexivity.
Qed.

Lemma decode_split (key rest : string) :
  StdString.occurs "." rest = false ->
  decode (key ++ "." ++ rest) = decode_remainder key rest.
Proof. intros H. unfold decode. simpl append. now apply DecodeArrayName_split. Qed.

(** A remainder of two characters or more whose second character is not
    ['#'] is the value, with type ['b']. *)
Lemma decode_default (key : string) (a c : ascii) (rest : string) :
  StdString.occurs "." (String a (String c rest)) = false ->
  c <> "#"%char ->
  decode (key ++ "." ++ String a (String c rest))
  = Ok (mkAssgn key (String a (String c rest)) "b").
Proof.
  intros Hdot Hc. rewrite (decode_split _ _ Hdot).
  unfold decode_remainder. simpl.
  apply Ascii.eqb_neq in Hc. rewrite Hc. reflexivity.
Qed.

(** A remainder shorter than two characters makes [at(1)] throw. *)
Lemma decode_short (key rest : string) :
  StdString.occurs "." rest = false ->
  String.length rest <= 1 ->
  decode (key ++ "." ++ rest) = Fail OutOfRange.
Proof.
  intros Hdot Hlen. rewrite (decode_split _ _ Hdot).
  destruct rest as [|a [|c rest]]; simpl in Hlen; try lia; reflexivity.
Qed.

(** A remainder [<T>#<value>] with a non-empty value. *)
Lemma decode_tagged (key : string) (t : ascii) (value : string) :
  t <> "."%char ->
  StdString.occurs "." value = false ->
  value <> ""%string ->
  decode (key ++ "." ++ String t ("#" ++ value)) = Ok (mkAssgn key value t).
Proof.
  intros Ht Hdot Hne.
  rewrite decode_split.
  - unfold decode_remainder. simpl.
    destruct value as [|v value]; [congruence|]. simpl.
    unfold StdString.substr. simpl.
    now rewrite substring_all.
  - simpl. apply Ascii.eqb_neq in Ht. now rewrite Ht, Hdot.
Qed.

Lemma tag_char_not_dot (tag : KindTag) : tag_char tag <> "."%char.
Proof. destruct tag; discriminate. Qed.

(** Within the limit of 255 bytes, the name built from C strings is the
    plain concatenation. *)
Lemma obj_name_fits (base : string) (t : ascii) (name : string) :
  is_c_string base = true ->
  is_c_string name = true ->
  t <> NUL ->
  String.length base + 3 + String.length name <= 255 ->
  obj_name base t name = (base ++ "." ++ String t ("#" ++ name))%string.
Proof.
  intros Hb Hn Ht Hlen. unfold obj_name.
  rewrite (c_str_id _ Hb), (c_str_id _ Hn).
  rewrite substring_long.
  - apply c_str_id. unfold is_c_string in *.
    rewrite occurs_append. simpl.
    apply negb_true_iff in Hb, Hn. apply Ascii.eqb_neq in Ht.
    now rewrite Hb, Hn, Ht.
  - rewrite length_append. simpl. lia.
Qed.

Lemma encode_fits (base qualifier : string) (tag : KindTag) :
  is_c_string base = true ->
  is_c_string qualifier = true ->
  String.length base + 3 + String.length qualifier <= 255 ->
  encode base qualifier tag
  = (base ++ "." ++ String (tag_char tag) ("#" ++ qualifier))%string.
Proof.
  intros Hb Hq Hlen. apply obj_name_fits; auto. destruct tag; discriminate.
Qed.

(** C1, as amended.  For C strings [base] and [qualifier], the qualifier not
    empty and free of ['.'], and a name that fits the 255 bytes of the engine's
    limit, decoding the name encoded from [(base, qualifier, tag)] gives back
    [(base, qualifier, tag)]. *)
Theorem decode_encode_roundtrip (base qualifier : string) (tag : KindTag) :
  is_c_string base = true ->
  is_c_string qualifier = true ->
  qualifier <> ""%string ->
  StdString.occurs "." qualifier = false ->
  String.length base + 3 + String.length qualifier <= 255 ->
  decode (encode base qualifier tag) = Ok (mkAssgn base qualifier (tag_char tag)).
Proof.
  intros Hb Hq Hne Hdot Hlen.
  rewrite encode_fits by assumption.
  apply decode_tagged; auto using tag_char_not_dot.
Qed.

Lemma decode_encode_roundtrip_witness :
  decode (encode "req.body" "value" ByteString)
  = Ok (mkAssgn "req.body" "value" "s").
Proof.
  apply (decode_encode_roundtrip "req.body" "value" ByteString);
    [reflexivity | reflexivity | discriminate | reflexivity | simpl; lia].
Defined.

(** C1, as stated, fails: an empty qualifier trips the decoder's assertion, a
    qualifier with a ['.'] moves the split point, and a name beyond 255 bytes
    is cut. *)
Lemma decode_encode_roundtrip_fails :
  decode (encode "a" "" Integer) <> Ok (mkAssgn "a" "" "i")
  /\ decode (encode "a" "x.y" Integer) <> Ok (mkAssgn "a" "x.y" "i")
  /\ decode (encode (replicate 300 "a") "value" Integer)
     <> Ok (mkAssgn (replicate 300 "a") "value" "i").
Proof.
  repeat split; vm_compute; discriminate.
Qed.

(** What the decoder does on these three names. *)
Lemma decode_encode_roundtrip_fails_how :
  decode (encode "a" "" Integer) = Fail (AssertionFailed "Invalid value encoding")
  /\ decode (encode "a" "x.y" Integer) = Fail OutOfRange
  /\ decode (encode (replicate 300 "a") "value" Integer)
     = Ok (mkAssgn (replicate 255 "a") "" "b").
Proof. repeat split; vm_compute; reflexivity. Qed.

(** C6 at names whose remainder after the last ['.'] has one character or
    none: [at(1)] throws [std::out_of_range] where the type was to default to
    ['b']. *)
Theorem decode_short_remainder_throws :
  decode "a.x" = Fail OutOfRange /\ decode "a." = Fail OutOfRange.
Proof. split; reflexivity. Qed.

(** C10.  A name [<key>.<T>#], split at its last ['.'], has an empty value
    after the two characters of the type prefix: the decoder's assertion
    "Invalid value encoding" fails. *)
Theorem decode_empty_value_asserts (key : string) (t : ascii) :
  t <> "."%char ->
  decode (key ++ "." ++ String t "#")
  = Fail (AssertionFailed "Invalid value encoding").
Proof.
  intros Ht. rewrite decode_split.
  - reflexivity.
  - simpl. apply Ascii.eqb_neq in Ht. now rewrite Ht.
Qed.

Lemma decode_empty_value_asserts_witness :
  decode "a.i#" = Fail (AssertionFailed "Invalid value encoding").
Proof.
  apply (decode_empty_value_asserts "a" "i"). discriminate.
Defined.

(** ** The size policy *)

(** C4.  With [min_size >= 0], [CheckObjectSize] accepts (returns 0) every
    size when [max_size < 0]; when [max_size = 0], exactly the sizes
    [>= min_size]; when [max_size > 0], exactly the sizes between [min_size]
    and [max_size]; it returns -1 otherwise. *)
Theorem CheckObjectSize_spec (size max_size min_size : Z) :
  (0 <= min_size)%Z ->
  ((max_size < 0)%Z -> CheckObjectSize size max_size min_size = Ok 0%Z)
  /\ (max_size = 0%Z ->
      (CheckObjectSize size max_size min_size = Ok 0%Z <-> (size >= min_size)%Z))
  /\ ((max_size > 0)%Z ->
      (CheckObjectSize size max_size min_size = Ok 0%Z
       <-> (min_size <= size <= max_size)%Z))
  /\ (CheckObjectSize size max_size min_size = Ok 0%Z
      \/ CheckObjectSize size max_size min_size = Ok (-1)%Z).
Proof.
  intros Hmin. unfold CheckObjectSize, assert.
  replace (min_size >=? 0)%Z with true by (symmetry; apply Z.geb_le; lia).
  cbn [bind ret Monad_outcome].
  destruct (Z.ltb_spec max_size 0); [|destruct (Z.eqb_spec max_size 0)];
    destruct (Z.geb_spec size min_size); destruct (Z.leb_spec size max_size);
    cbn [andb]; repeat split; intros; try lia; try reflexivity;
      try discriminate; auto.
Qed.

(** A size is checked only against a non-negative minimum. *)
Lemma CheckObjectSize_min (size max_size min_size c : Z) :
  CheckObjectSize size max_size min_size = Ok c -> (min_size >=? 0)%Z = true.
Proof.
  unfold CheckObjectSize, assert.
  destruct (min_size >=? 0)%Z; [reflexivity | discriminate].
Qed.

Lemma CheckObjectSize_spec_witness :
  CheckObjectSize 5 (-1) 1 = Ok 0%Z
  /\ (CheckObjectSize 0 0 1 = Ok 0%Z <-> (0 >= 1)%Z)
  /\ (CheckObjectSize 5 10 1 = Ok 0%Z <-> (1 <= 5 <= 10)%Z).
Proof.
  split; [|split].
  - destruct (CheckObjectSize_spec 5 (-1) 1) as (Hfixed & _); [lia|].
    apply Hfixed. lia.
  - destruct (CheckObjectSize_spec 0 0 1) as (_ & Hlower & _); [lia|].
    apply Hlower. reflexivity.
  - destruct (CheckObjectSize_spec 5 10 1) as (_ & _ & Hrange & _); [lia|].
    apply Hrange. lia.
Defined.

(** ** Running the session's functions *)

Lemma nth_error_snoc {A : Type} (l : list A) (x : A) :
  nth_error (l ++ [x]) (List.length l) = Some x.
Proof. rewrite nth_error_app2, Nat.sub_diag by lia. reflexivity. Qed.

Lemma nth_error_list_update_eq {A : Type} (i : nat) (x : A) (l : list A) :
  i < List.length l -> nth_error (list_update i x l) i = Some x.
Proof.
  revert i; induction l as [|a l IH]; intros [|i] H; simpl in *; try lia.
  - reflexivity.
  - apply IH. lia.
Qed.

Lemma nth_error_list_update_neq {A : Type} (i j : nat) (x : A) (l : list A) :
  i <> j -> nth_error (list_update i x l) j = nth_error l j.
Proof.
  revert i j; induction l as [|a l IH]; intros [|i] [|j] H; simpl; try reflexivity.
  - congruence.
  - apply IH. congruence.
Qed.

Lemma length_list_update {A : Type} (i : nat) (x : A) (l : list A) :
  List.length (list_update i x l) = List.length l.
Proof.
  revert i; induction l as [|a l IH]; intros [|i]; simpl; auto.
Qed.

Ltac unfold_session :=
  unfold MakeConcolicSequence, MakeConcolicInt, MakeConcolicString,
    MakeConcolicUnicode, MakeConcolicList, MakeConcolicDict, MakeConcolicTuple,
    ConstrainObjectSize, MakeConcolicBuffer, PyInt_FromLong,
    PyString_FromStringAndSize, PyUnicode_FromUnicode, construct, PyMem_Malloc,
    PyMem_Free, PyErr_NoMemory, PyErr_SetString, Py_INCREF, new_object,
    alloc_fault, PyInt_Check, PyString_Check, PyUnicode_Check, PyList_Check,
    PyDict_Check, PyTuple_Check, type_check, int_ob_ival, string_ob_sval,
    string_ob_size, unicode_str, unicode_length, list_ob_size, dict_ma_used,
    tuple_ob_size, field, deref, assertM, lift, assert, s2e_version,
    s2e_make_concolic, s2e_assume.

Ltac step :=
  cbn -[Z.eqb Z.geb Z.ltb Z.gtb Z.leb Z.of_nat Z.to_nat Z.mul Z.div to_int
        to_Py_ssize_t obj_name substring firstn nth_error String.length
        List.length CheckObjectSize].

(** Decide a comparison of the goal, dropping the impossible branch. *)
Ltac case_cond :=
  match goal with
  | |- context [(?a >=? ?b)%Z] => destruct (Z.geb_spec a b)
  | |- context [(?a >? ?b)%Z] => destruct (Z.gtb_spec a b)
  | |- context [(?a <? ?b)%Z] => destruct (Z.ltb_spec a b)
  | |- context [(?a <=? ?b)%Z] => destruct (Z.leb_spec a b)
  | |- context [(?a =? ?b)%Z] => destruct (Z.eqb_spec a b)
  end; try lia.

(** One step of the case analysis of a run: use a known equation, or split on
    what the run inspects next. *)
Ltac crunch_step :=
  match goal with
  | H : ?x = _ |- context [?x] => rewrite H
  | |- context [nth_error (?l ++ [_]) (List.length ?l)] =>
      rewrite nth_error_snoc
  | |- context [match nth_error (heap ?w) ?t with _ => _ end] =>
      destruct (nth_error (heap w) t) as [[? []]|] eqn:?
  | |- context [match alloc_faults ?w with _ => _ end] =>
      destruct (alloc_faults w) as [|[] ?] eqn:?
  | |- context [match ?l with [] => _ | _ :: _ => _ end] =>
      is_var l; destruct l as [|[] ?]
  | |- context [if ?c then _ else _] => first [case_cond | destruct c eqn:?]
  end.

Ltac crunch := repeat (step; crunch_step); step.

Lemma engine_active_flag (w : World) :
  engine_active w = true ->
  Py_EnableS2EFlag w = true /\ (s2e_engine_version w =? 0)%Z = false.
Proof.
  unfold engine_active. intros H. apply andb_true_iff in H as [Hf Hv].
  apply negb_true_iff in Hv. auto.
Qed.

Lemma firstn_length_all {A : Type} (l : list A) :
  firstn (Z.to_nat (Z.of_nat (List.length l))) l = l.
Proof. rewrite Nat2Z.id. apply firstn_all. Qed.

Lemma substring_length_all (s : string) :
  substring 0 (Z.to_nat (Z.of_nat (String.length s))) s = s.
Proof. rewrite Nat2Z.id. apply substring_all. Qed.

Lemma wrap_signed_small (bits z : Z) :
  (0 < bits)%Z -> (0 <= z < 2 ^ (bits - 1))%Z -> wrap_signed bits z = z.
Proof.
  intros Hbits Hz. unfold wrap_signed.
  assert (2 ^ bits = 2 * 2 ^ (bits - 1))%Z as Hpow.
  { replace bits with (Z.succ (bits - 1)) at 1 by lia.
    apply Z.pow_succ_r. lia. }
  rewrite Z.mod_small by lia. lia.
Qed.

(** When the size in bytes of the code units fits [Py_ssize_t], as it does for
    an object in memory, the copy and the new object hold all of them. *)
Lemma unicode_copy_all {platform : Platform} (u : list Z) :
  (0 < sizeof_Py_UNICODE)%Z ->
  (0 < sizeof_Py_ssize_t)%Z ->
  (Z.of_nat (List.length u) * sizeof_Py_UNICODE
   < 2 ^ (8 * sizeof_Py_ssize_t - 1))%Z ->
  unicode_copy u = u /\ unicode_result u = u.
Proof.
  intros Hunit Hsize Hfits.
  assert (unicode_copy u = u) as Hcopy.
  { unfold unicode_copy, unicode_buf_size, to_Py_ssize_t.
    rewrite wrap_signed_small by lia.
    rewrite Z.div_mul by lia. apply firstn_length_all. }
  split; [exact Hcopy|].
  unfold unicode_result. rewrite Hcopy. apply firstn_length_all.
Qed.

Section MarkingProperties.

Context {platform : Platform}.
Variable max_symbolic_size_ : Z.

(** C5.  With the engine active and [target] an integer object of value
    [value]: when [min_value <= max_value] and the value is outside
    [[min_value, max_value]], [MakeConcolicInt] returns NULL with a
    [ValueError] and nothing is issued to the engine; when
    [min_value > max_value] it registers the value under
    [encode name "value" Integer] and issues no assumption; when the value is
    within the range it registers the value, then assumes
    [value >= min_value], then [value <= max_value].  In the last two cases it
    returns an integer object of that value, the interpreter constructing
    it. *)
Theorem MakeConcolicInt_range (target : ref) (name : string)
        (max_value min_value value : Z) (w : World) :
  engine_active w = true ->
  points_to w target (PyIntObject value) ->
  let registered :=
    make_concolic (LocalLong value) (to_int sizeof_long)
                  (encode name "value" Integer) in
  let run := MakeConcolicInt target name max_value min_value w in
  ((min_value <= max_value)%Z ->
   (value < min_value \/ max_value < value)%Z ->
   run = (Ok NULL,
          set_curexc
            (Some (PyExc_ValueError, "Incompatible value constraints")) w))
  /\ ((max_value < min_value)%Z ->
      s2e_log (snd run) = (s2e_log w ++ [registered])%list
      /\ (next_alloc_ok w = true ->
          exists result,
            fst run = Ok (Some result)
            /\ points_to (snd run) result (PyIntObject value)
            /\ curexc (snd run) = curexc w))
  /\ ((min_value <= value <= max_value)%Z ->
      s2e_log (snd run)
      = (s2e_log w ++ [registered;
                       assume (Ge (LocalLong value) min_value);
                       assume (Le (LocalLong value) max_value)])%list
      /\ (next_alloc_ok w = true ->
          exists result,
            fst run = Ok (Some result)
            /\ points_to (snd run) result (PyIntObject value)
            /\ curexc (snd run) = curexc w)).
Proof.
  intros Ha [rc Ht] registered run. subst registered run.
  apply engine_active_flag in Ha as [Hf Hv].
  unfold encode, next_alloc_ok. unfold_session.
  step. rewrite Ht. step. rewrite Hf, Hv, Ht. step.
  split; [|split].
  - intros Hle Hout. do 3 case_cond; reflexivity.
  - intros Hlt. case_cond. step.
    destruct (alloc_faults w) as [|[] l]; step;
      (split;
       [reflexivity
       | intros; try discriminate; exists (List.length (heap w));
         repeat split; exists 1%Z; apply nth_error_snoc]).
  - intros Hin. do 3 case_cond. step. repeat (rewrite Hf; step).
    destruct (alloc_faults w) as [|[] l]; step;
      (split;
       [now rewrite <- !app_assoc
       | intros; try discriminate; exists (List.length (heap w));
         repeat split; exists 1%Z; apply nth_error_snoc]).
Qed.

(** C2, as amended.  For a string object of five characters marked under
    ["req.body"] with bounds (min 1, max 10), the engine active and the
    interpreter's allocations succeeding: the size 5 is accepted; the copy of
    the five characters is registered under ["req.body.s#value"]; the size
    field of the new string is registered under ["req.body.l#size"]; then
    [size <= 10] is assumed, then [size >= 1]; and the object returned is a
    new string with the same characters, distinct from the input. *)
Theorem MakeConcolicString_req_body (target : ref) (s : string) (w : World) :
  String.length s = 5%nat ->
  engine_active w = true ->
  allocs_ok 2 w = true ->
  points_to w target (PyStringObject s) ->
  let run := MakeConcolicString target "req.body" 10 1 w in
  let result := List.length (heap w) in
  CheckObjectSize 5 10 1 = Ok 0%Z
  /\ fst run = Ok (Some result)
  /\ result <> target
  /\ nth_error (heap (snd run)) result = Some (mkObject 1 (PyStringObject s))
  /\ s2e_log (snd run)
     = (s2e_log w
        ++ [make_concolic (CharData s) 5 "req.body.s#value";
            make_concolic (SizeField result 5) (to_int sizeof_Py_ssize_t)
                          "req.body.l#size";
            assume (Le (SizeField result 5) 10);
            assume (Ge (SizeField result 5) 1)])%list.
Proof.
  intros Hlen Ha Hallocs [rc Ht] run result. subst run result.
  apply engine_active_flag in Ha as [Hf _].
  assert (target < List.length (heap w))%nat as Hlive
      by (apply nth_error_Some; congruence).
  assert (substring 0 5 s = s) as Hsub by (apply substring_long; lia).
  change "req.body.s#value" with (obj_name "req.body" "s" "value").
  change "req.body.l#size" with (obj_name "req.body" "l" "size").
  unfold_session. step. rewrite Ht. step. rewrite Ht. step. rewrite Ht. step.
  rewrite Hlen. change (Z.of_nat 5) with 5%Z. change (Z.to_nat 5) with 5%nat.
  rewrite !Hsub.
  change (CheckObjectSize 5 10 1) with (Ok 0%Z).
  change (to_int 5) with 5%Z.
  unfold allocs_ok in Hallocs. cbn -[to_int obj_name nth_error].
  destruct (alloc_faults w) as [|[] [|[] l]] eqn:Hfaults; try discriminate;
    repeat (progress (cbn -[to_int obj_name nth_error];
                      rewrite ?Hfaults, ?nth_error_snoc, ?Hlen, ?Hf));
    rewrite <- !app_assoc;
    repeat split; try lia; try apply nth_error_snoc.
Qed.

(** *** Every marking function ends in one of the three ways *)

(** What is known of the coming allocations decides the conditions on
    them. *)
Ltac faults_known :=
  unfold next_alloc_ok, second_alloc_fails;
  repeat match goal with
         | H : alloc_faults ?w = _ |- context [alloc_faults ?w] => rewrite H
         end;
  cbn [hd negb].

Ltac outcome_cases :=
  faults_known;
  split;
  [ first
      [ left; reflexivity
      | right; left; rewrite <- ?app_assoc; split;
        [reflexivity | first [left; eexists; reflexivity | right; repeat split]];
        fail
      | right; right; rewrite <- ?app_assoc; repeat split; fail ]
  | intros Hmidway Hfails;
    first [discriminate | split; [reflexivity | intros p; discriminate]] ].

Ltac unfold_outcome :=
  unfold marking_outcome, full_sequence, value_sequence, target_body, mark;
  unfold_session;
  unfold CheckObjectSize, assert, size_sequence, count_sequence, encode, raised,
    unicode_result, unicode_copy, unicode_buf_size;
  cbn [request_target request_name resolve];
  rewrite ?substring_length_all.

Lemma MakeConcolicInt_outcome target name max_value min_value w :
  Py_EnableS2EFlag w = true ->
  marking_outcome max_symbolic_size_ (MarkInt target name max_value min_value) w.
Proof. intros Hf. unfold_outcome. crunch; outcome_cases. Qed.

Lemma MakeConcolicList_outcome target name max_size min_size w :
  Py_EnableS2EFlag w = true ->
  marking_outcome max_symbolic_size_ (MarkList target name max_size min_size) w.
Proof. intros Hf. unfold_outcome. crunch; outcome_cases. Qed.

Lemma MakeConcolicDict_outcome target name w :
  Py_EnableS2EFlag w = true ->
  marking_outcome max_symbolic_size_ (MarkDict target name) w.
Proof. intros Hf. unfold_outcome. crunch; outcome_cases. Qed.

Lemma MakeConcolicTuple_outcome target name w :
  Py_EnableS2EFlag w = true ->
  marking_outcome max_symbolic_size_ (MarkTuple target name) w.
Proof. intros Hf. unfold_outcome. crunch; outcome_cases. Qed.

Lemma MakeConcolicString_outcome target name max_size min_size w :
  Py_EnableS2EFlag w = true ->
  marking_outcome max_symbolic_size_ (MarkString target name max_size min_size) w.
Proof.
  intros Hf. unfold_outcome.
  crunch; rewrite ?substring_length_all; outcome_cases.
Qed.

Lemma MakeConcolicUnicode_outcome target name max_size min_size w :
  Py_EnableS2EFlag w = true ->
  marking_outcome max_symbolic_size_ (MarkUnicode target name max_size min_size) w.
Proof. intros Hf. unfold_outcome. crunch; outcome_cases. Qed.

(** [MakeConcolicSequence] with the engine active: the two checks, then the
    function of the object's type. *)
Lemma MakeConcolicSequence_dispatch target name max_size min_size w :
  engine_active w = true ->
  MakeConcolicSequence max_symbolic_size_ target name max_size min_size w
  = if (min_size <? 0)%Z then
      (Ok NULL,
       set_curexc
         (Some (PyExc_ValueError, "Minimum size cannot be negative")) w)
    else if Nat.eqb target Py_None then
      (Ok NULL,
       set_curexc (Some (PyExc_ValueError, "Cannot make symbolic None")) w)
    else
      match nth_error (heap w) target with
      | None => (Fail InvalidPointer, w)
      | Some o =>
          match dispatch (ob_body o) target name max_size min_size with
          | Some r => mark max_symbolic_size_ r w
          | None =>
              (Ok NULL,
               set_curexc (Some (PyExc_TypeError, "Unsupported type")) w)
          end
      end.
Proof.
  intros Ha. apply engine_active_flag in Ha as [Hf Hv].
  unfold MakeConcolicSequence, s2e_version, PyString_Check, PyUnicode_Check,
    PyList_Check, PyDict_Check, PyTuple_Check, type_check, deref,
    PyErr_SetString.
  cbn [bind ret Monad_M]. rewrite Hf, Hv.
  destruct (min_size <? 0)%Z; [reflexivity|].
  destruct (Nat.eqb target Py_None); [reflexivity|].
  destruct (nth_error (heap w) target) as [[rc b]|] eqn:Ht;
    [|reflexivity].
  destruct b; cbn [dispatch mark ob_body];
    repeat (progress (rewrite ?Ht; cbn [bind ret Monad_M ob_body]));
    reflexivity.
Qed.

Lemma MakeConcolicSequence_outcome target name max_size min_size w :
  engine_active w = true ->
  marking_outcome max_symbolic_size_
                  (MarkSequence target name max_size min_size) w.
Proof.
  intros Ha. pose proof (engine_active_flag w Ha) as [Hf _].
  unfold marking_outcome.
  change (mark max_symbolic_size_ (MarkSequence target name max_size min_size))
    with (MakeConcolicSequence max_symbolic_size_ target name max_size min_size).
  rewrite (MakeConcolicSequence_dispatch _ _ _ _ _ Ha).
  assert (forall (e : PyExc * string) (cond : Prop),
             (s2e_log (set_curexc (Some e) w) = s2e_log w \/ cond)
             /\ (s2e_log (set_curexc (Some e) w) = s2e_log w
                 /\ forall p, Ok NULL <> Ok (Some p))) as Hsilent
      by (intros e cond; repeat split; [left; reflexivity | discriminate]).
  destruct (min_size <? 0)%Z;
    [split; [apply Hsilent | intros _ _; apply (Hsilent _ True)]|].
  destruct (Nat.eqb target Py_None);
    [split; [apply Hsilent | intros _ _; apply (Hsilent _ True)]|].
  unfold full_sequence, value_sequence, target_body.
  cbn [request_target request_name resolve].
  destruct (nth_error (heap w) target) as [[rc b]|] eqn:Ht;
    [|split; [left; reflexivity | intros _ _; split; [reflexivity | discriminate]]].
  cbn [ob_body].
  destruct b; cbn [dispatch];
    try (split; [apply Hsilent | intros _ _; apply (Hsilent _ True)]).
  - generalize (MakeConcolicString_outcome target name max_size min_size w Hf).
    unfold marking_outcome, full_sequence, value_sequence, target_body.
    cbn [request_target request_name resolve constructs_last].
    rewrite Ht. exact (fun H => H).
  - generalize (MakeConcolicUnicode_outcome target name max_size min_size w Hf).
    unfold marking_outcome, full_sequence, value_sequence, target_body.
    cbn [request_target request_name resolve constructs_last].
    rewrite Ht. exact (fun H => H).
  - generalize (MakeConcolicList_outcome target name max_size min_size w Hf).
    unfold marking_outcome, full_sequence, value_sequence, target_body.
    cbn [request_target request_name resolve constructs_last].
    rewrite Ht. exact (fun H => H).
  - generalize (MakeConcolicDict_outcome target name w Hf).
    unfold marking_outcome, full_sequence, value_sequence, target_body.
    cbn [request_target request_name resolve constructs_last].
    rewrite Ht. exact (fun H => H).
  - generalize (MakeConcolicTuple_outcome target name w Hf).
    unfold marking_outcome, full_sequence, value_sequence, target_body.
    cbn [request_target request_name resolve constructs_last].
    rewrite Ht. exact (fun H => H).
Qed.

(** C3, as amended.  With the engine active, every marking function ends in
    one of three ways.  Nothing was issued to the engine: every failure of a
    check (type, bounds, allocation of the copy) is of this kind.
    Or the full sequence was issued (content, then size and constraints where
    the function tracks the size) and the function returns the object, or
    NULL with [MemoryError] when it is [MakeConcolicInt] and the interpreter
    could not construct the integer it returns, its allocation failing.  Or
    the content alone was registered and the function returns NULL with
    [MemoryError]: it is [MakeConcolicString] or [MakeConcolicUnicode], the
    private copy was allocated and the interpreter could not construct the
    new string, the allocation after that of the copy failing.  No other
    failure comes after a registration; in particular, when the allocation of
    the private copy fails, [MakeConcolicString] and [MakeConcolicUnicode]
    issue nothing and return no object. *)
Theorem marking_ends (r : request) (w : World) :
  engine_active w = true ->
  let o := fst (mark max_symbolic_size_ r w) in
  let w' := snd (mark max_symbolic_size_ r w) in
  (s2e_log w' = s2e_log w
   \/ (s2e_log w' = (s2e_log w ++ full_sequence max_symbolic_size_ r w)%list
       /\ ((exists p, o = Ok (Some p))
           \/ (o = Ok NULL /\ raised w' = Some PyExc_MemoryError
               /\ constructs_last r = true
               /\ next_alloc_ok w = false)))
   \/ (s2e_log w' = (s2e_log w ++ value_sequence r w)%list
       /\ o = Ok NULL /\ raised w' = Some PyExc_MemoryError
       /\ constructs_midway (resolve r (target_body r w)) = true
       /\ second_alloc_fails w = true))
  /\ (constructs_midway (resolve r (target_body r w)) = true ->
      next_alloc_ok w = false ->
      s2e_log w' = s2e_log w /\ forall p, o <> Ok (Some p)).
Proof.
  intros Ha. pose proof (engine_active_flag w Ha) as [Hf _].
  destruct r.
  - now apply MakeConcolicInt_outcome.
  - now apply MakeConcolicSequence_outcome.
  - now apply MakeConcolicString_outcome.
  - now apply MakeConcolicUnicode_outcome.
  - now apply MakeConcolicList_outcome.
  - now apply MakeConcolicDict_outcome.
  - now apply MakeConcolicTuple_outcome.
Qed.

(** *** Dispatch on the type of the object *)

(** C7, as amended.  With the engine active and [min_size >= 0],
    [MakeConcolicSequence] on [None] returns NULL with a [ValueError]
    ("Cannot make symbolic None") and issues nothing to the engine; the
    [TypeError] ("Unsupported type") is what it raises for an object whose
    type it does not dispatch on. *)
Theorem MakeConcolicSequence_None (name : string) (max_size min_size : Z)
        (w : World) :
  engine_active w = true ->
  (0 <= min_size)%Z ->
  let run :=
    MakeConcolicSequence max_symbolic_size_ Py_None name max_size min_size w in
  run = (Ok NULL,
         set_curexc (Some (PyExc_ValueError, "Cannot make symbolic None")) w)
  /\ s2e_log (snd run) = s2e_log w
  /\ raised (snd run) = Some PyExc_ValueError
  /\ forall target b,
      target <> Py_None ->
      points_to w target b ->
      dispatch b target name max_size min_size = None ->
      MakeConcolicSequence max_symbolic_size_ target name max_size min_size w
      = (Ok NULL,
         set_curexc (Some (PyExc_TypeError, "Unsupported type")) w).
Proof.
  intros Ha Hmin run. subst run.
  assert ((min_size <? 0)%Z = false) as Hneg by (apply Z.ltb_ge; lia).
  repeat split.
  - rewrite MakeConcolicSequence_dispatch, Hneg by assumption. reflexivity.
  - rewrite MakeConcolicSequence_dispatch, Hneg by assumption. reflexivity.
  - rewrite MakeConcolicSequence_dispatch, Hneg by assumption. reflexivity.
  - intros target b Hnone [rc Ht] Hb.
    rewrite MakeConcolicSequence_dispatch, Hneg by assumption.
    apply Nat.eqb_neq in Hnone. rewrite Hnone, Ht. cbn [ob_body].
    rewrite Hb. reflexivity.
Qed.

(** C8.  With the engine active, [MakeConcolicDict] and [MakeConcolicTuple]
    register the count field of the object under
    [encode name "size" PlatformSizeInteger], then assume [count >= 0], then
    [count < max_symbolic_size_], and return the object itself; so does
    [MakeConcolicSequence] on such an object, whatever its [max_size] and
    its [min_size >= 0]. *)
Theorem MakeConcolicDict_Tuple_count (target : ref) (name : string)
        (w : World) :
  engine_active w = true ->
  let expected count :=
    (s2e_log w
     ++ [make_concolic (SizeField target count) (to_int sizeof_Py_ssize_t)
                       (encode name "size" PlatformSizeInteger);
         assume (Ge (SizeField target count) 0);
         assume (Lt (SizeField target count) max_symbolic_size_)])%list in
  (forall table, points_to w target (PyDictObject table) ->
     let run := MakeConcolicDict max_symbolic_size_ target name w in
     fst run = Ok (Some target)
     /\ s2e_log (snd run) = expected (Z.of_nat (List.length table))
     /\ curexc (snd run) = curexc w
     /\ forall max_size min_size,
         (0 <= min_size)%Z -> target <> Py_None ->
         MakeConcolicSequence max_symbolic_size_ target name max_size min_size w
         = run)
  /\ (forall items, points_to w target (PyTupleObject items) ->
     let run := MakeConcolicTuple max_symbolic_size_ target name w in
     fst run = Ok (Some target)
     /\ s2e_log (snd run) = expected (Z.of_nat (List.length items))
     /\ curexc (snd run) = curexc w
     /\ forall max_size min_size,
         (0 <= min_size)%Z -> target <> Py_None ->
         MakeConcolicSequence max_symbolic_size_ target name max_size min_size w
         = run).
Proof.
  intros Ha expected. subst expected.
  pose proof (engine_active_flag w Ha) as [Hf _].
  split; intros body [rc Ht] run; subst run.
  - repeat split.
    + unfold_session. crunch. reflexivity.
    + unfold_session. unfold encode. crunch. now rewrite <- !app_assoc.
    + unfold_session. crunch. reflexivity.
    + intros max_size min_size Hmin Hnone.
      rewrite MakeConcolicSequence_dispatch by assumption.
      apply Nat.eqb_neq in Hnone. apply Z.ltb_ge in Hmin.
      rewrite Hmin, Hnone, Ht. reflexivity.
  - repeat split.
    + unfold_session. crunch. reflexivity.
    + unfold_session. unfold encode. crunch. now rewrite <- !app_assoc.
    + unfold_session. crunch. reflexivity.
    + intros max_size min_size Hmin Hnone.
      rewrite MakeConcolicSequence_dispatch by assumption.
      apply Nat.eqb_neq in Hnone. apply Z.ltb_ge in Hmin.
      rewrite Hmin, Hnone, Ht. reflexivity.
Qed.

(** *** Identity of the object returned *)

Ltac live_target :=
  match goal with
  | H : nth_error (heap ?w) ?t = Some _ |- _ =>
      assert (t < List.length (heap w))%nat
        by (apply nth_error_Some; rewrite H; discriminate)
  end.

(** A fact about the objects after a run whose target is an object of the
    heap: what was constructed is at the end, what was there is where it
    was. *)
Ltac post_fact :=
  first
    [ reflexivity
    | eassumption
    | lia
    | apply nth_error_None; lia
    | apply nth_error_snoc
    | rewrite nth_error_app1 by assumption; first [eassumption | reflexivity]
    | apply nth_error_list_update_eq; assumption ].

Ltac post_state :=
  live_target; repeat (first [split | eexists]); post_fact.

(** C9.  [MakeConcolicList] returns the very object it is given: it does so
    whenever the size of the list is accepted, and returns no other object;
    the list is afterwards at that address as before, with one more owner.
    [MakeConcolicString] and [MakeConcolicUnicode] return an object distinct
    from the one they are given: whenever the size is accepted and the
    interpreter's two allocations succeed they return the object newly
    constructed, which is afterwards a string with the characters of the
    given one at an address that held no object before, the given string
    being still at its own; and they never return their argument: whatever
    they return is such a new string. *)
Theorem marked_object_identity (target : ref) (name : string)
        (max_size min_size : Z) (w : World) :
  (forall items refcnt,
      nth_error (heap w) target = Some (mkObject refcnt (PyListObject items)) ->
      CheckObjectSize (Z.of_nat (List.length items)) max_size min_size = Ok 0%Z ->
      let run := MakeConcolicList target name max_size min_size w in
      fst run = Ok (Some target)
      /\ nth_error (heap (snd run)) target
         = Some (mkObject (refcnt + 1) (PyListObject items)))
  /\ (forall s,
      points_to w target (PyStringObject s) ->
      CheckObjectSize (Z.of_nat (String.length s)) max_size min_size = Ok 0%Z ->
      allocs_ok 2 w = true ->
      let run := MakeConcolicString target name max_size min_size w in
      fst run = Ok (Some (List.length (heap w)))
      /\ List.length (heap w) <> target
      /\ points_to (snd run) (List.length (heap w)) (PyStringObject s)
      /\ points_to (snd run) target (PyStringObject s))
  /\ (forall u,
      points_to w target (PyUnicodeObject u) ->
      CheckObjectSize (Z.of_nat (List.length u)) max_size min_size = Ok 0%Z ->
      allocs_ok 2 w = true ->
      let run := MakeConcolicUnicode target name max_size min_size w in
      fst run = Ok (Some (List.length (heap w)))
      /\ List.length (heap w) <> target
      /\ points_to (snd run) (List.length (heap w))
                   (PyUnicodeObject (unicode_result u))
      /\ points_to (snd run) target (PyUnicodeObject u))
  /\ (forall result,
      let run := MakeConcolicList target name max_size min_size w in
      fst run = Ok (Some result) ->
      result = target
      /\ exists items,
          points_to w target (PyListObject items)
          /\ points_to (snd run) result (PyListObject items))
  /\ (forall result,
      let run := MakeConcolicString target name max_size min_size w in
      fst run = Ok (Some result) ->
      result <> target
      /\ nth_error (heap w) result = None
      /\ exists s,
          points_to w target (PyStringObject s)
          /\ points_to (snd run) result (PyStringObject s)
          /\ points_to (snd run) target (PyStringObject s))
  /\ (forall result,
      let run := MakeConcolicUnicode target name max_size min_size w in
      fst run = Ok (Some result) ->
      result <> target
      /\ nth_error (heap w) result = None
      /\ exists u,
          points_to w target (PyUnicodeObject u)
          /\ points_to (snd run) result (PyUnicodeObject (unicode_result u))
          /\ points_to (snd run) target (PyUnicodeObject u)).
Proof.
  split; [|split; [|split; [|split; [|split]]]].
  - intros items rc Ht Hc run. subst run.
    pose proof (CheckObjectSize_min _ _ _ _ Hc) as Hmin.
    unfold_session. crunch; post_state.
  - intros s [rc Ht] Hc Hallocs run. subst run.
    pose proof (CheckObjectSize_min _ _ _ _ Hc) as Hmin.
    unfold allocs_ok in Hallocs.
    destruct (alloc_faults w) as [|[] [|[] l]] eqn:Hfaults;
      try discriminate; clear Hallocs;
      unfold points_to; unfold_session; rewrite ?substring_length_all;
      crunch; rewrite ?substring_length_all; post_state.
  - intros u [rc Ht] Hc Hallocs run. subst run.
    pose proof (CheckObjectSize_min _ _ _ _ Hc) as Hmin.
    unfold allocs_ok in Hallocs.
    destruct (alloc_faults w) as [|[] [|[] l]] eqn:Hfaults;
      try discriminate; clear Hallocs;
      unfold points_to, unicode_result, unicode_copy, unicode_buf_size;
      unfold_session; crunch; post_state.
  - intros result run. subst run.
    unfold points_to. unfold_session. unfold CheckObjectSize, assert.
    crunch; intros Hr; try discriminate; injection Hr as <-; post_state.
  - intros result run. subst run.
    unfold points_to. unfold_session. unfold CheckObjectSize, assert.
    rewrite ?substring_length_all.
    crunch; rewrite ?substring_length_all; intros Hr; try discriminate;
      injection Hr as <-; post_state.
  - intros result run. subst run.
    unfold points_to, unicode_result, unicode_copy, unicode_buf_size.
    unfold_session. unfold CheckObjectSize, assert.
    crunch; intros Hr; try discriminate; injection Hr as <-; post_state.
Qed.

End MarkingProperties.

(** ** The properties at the sample world *)

Lemma MakeConcolicInt_range_witness :
  MakeConcolicInt (platform := lp64) 2 "n" 5 0 sample_world
  = (Ok NULL,
     set_curexc (Some (PyExc_ValueError, "Incompatible value constraints"))
                sample_world)
  /\ s2e_log (snd (MakeConcolicInt (platform := lp64) 2 "n" 0 1 sample_world))
     = [make_concolic (LocalLong 7) 8 "n.i#value"]
  /\ s2e_log (snd (MakeConcolicInt (platform := lp64) 2 "n" 10 0 sample_world))
     = [make_concolic (LocalLong 7) 8 "n.i#value";
        assume (Ge (LocalLong 7) 0);
        assume (Le (LocalLong 7) 10)].
Proof.
  split; [|split].
  - destruct (MakeConcolicInt_range (platform := lp64) 2 "n" 5 0 7 sample_world
                eq_refl (ex_intro _ 1%Z eq_refl)) as (Hout & _ & _).
    apply Hout; lia.
  - destruct (MakeConcolicInt_range (platform := lp64) 2 "n" 0 1 7 sample_world
                eq_refl (ex_intro _ 1%Z eq_refl)) as (_ & Hoff & _).
    apply Hoff; lia.
  - destruct (MakeConcolicInt_range (platform := lp64) 2 "n" 10 0 7 sample_world
                eq_refl (ex_intro _ 1%Z eq_refl)) as (_ & _ & Hin).
    apply Hin; lia.
Defined.

Lemma MakeConcolicString_req_body_witness :
  let run := MakeConcolicString (platform := lp64) 1 "req.body" 10 1 sample_world in
  fst run = Ok (Some 8%nat)
  /\ s2e_log (snd run)
     = [make_concolic (CharData "hello") 5 "req.body.s#value";
        make_concolic (SizeField 8 5) 8 "req.body.l#size";
        assume (Le (SizeField 8 5) 10);
        assume (Ge (SizeField 8 5) 1)].
Proof.
  destruct (MakeConcolicString_req_body (platform := lp64) 1 "hello" sample_world
              eq_refl eq_refl eq_refl (ex_intro _ 1%Z eq_refl))
    as (_ & Hresult & _ & _ & Hlog).
  split; [exact Hresult | exact Hlog].
Defined.

(** C2, as stated, fails: the constraint [size <= 10] is issued before
    [size >= 1], not after. *)
Lemma MakeConcolicString_req_body_order :
  s2e_log (snd (MakeConcolicString (platform := lp64) 1 "req.body" 10 1
                                   sample_world))
  <> [make_concolic (CharData "hello") 5 "req.body.s#value";
      make_concolic (SizeField 8 5) 8 "req.body.l#size";
      assume (Ge (SizeField 8 5) 1);
      assume (Le (SizeField 8 5) 10)].
Proof. vm_compute. discriminate. Qed.

Lemma marking_ends_witness :
  marking_outcome (platform := lp64) 100 (MarkString 1 "req.body" 10 1)
                  sample_world
  /\ s2e_log (snd (MakeConcolicString (platform := lp64) 1 "req.body" 10 1
                      (set_alloc_faults [true] sample_world)))
     = [].
Proof.
  split.
  - exact (marking_ends (platform := lp64) 100 (MarkString 1 "req.body" 10 1)
                        sample_world eq_refl).
  - destruct (marking_ends (platform := lp64) 100
                (MarkString 1 "req.body" 10 1)
                (set_alloc_faults [true] sample_world) eq_refl)
      as [_ Hcopy].
    exact (proj1 (Hcopy eq_refl eq_refl)).
Defined.

(** C3, as stated, fails: when the interpreter cannot construct the new
    string, [MakeConcolicString] returns NULL after the copy of the characters
    was registered, and neither the size nor its constraints are issued. *)
Lemma marking_aborts_after_registration :
  let run :=
    MakeConcolicString (platform := lp64) 1 "req.body" 10 1 faulty_world in
  fst run = Ok NULL
  /\ raised (snd run) = Some PyExc_MemoryError
  /\ s2e_log (snd run) = [make_concolic (CharData "hello") 5 "req.body.s#value"].
Proof. vm_compute. repeat split. Qed.

Lemma MakeConcolicSequence_None_witness :
  MakeConcolicSequence (platform := lp64) 100 Py_None "x" 10 0 sample_world
  = (Ok NULL,
     set_curexc (Some (PyExc_ValueError, "Cannot make symbolic None"))
                sample_world)
  /\ MakeConcolicSequence (platform := lp64) 100 7 "x" 10 0 sample_world
     = (Ok NULL,
        set_curexc (Some (PyExc_TypeError, "Unsupported type")) sample_world).
Proof.
  destruct (MakeConcolicSequence_None (platform := lp64) 100 "x" 10 0
              sample_world eq_refl ltac:(lia)) as (Hnone & _ & _ & Hother).
  split; [exact Hnone|].
  apply (Hother 7%nat PyOtherObject);
    [discriminate | exists 1%Z; reflexivity | reflexivity].
Defined.

(** C7, as stated, fails: the error for [None] is a [ValueError], and it is
    not the [TypeError] raised for an object of an unsupported type. *)
Lemma MakeConcolicSequence_None_error :
  let none_run :=
    MakeConcolicSequence (platform := lp64) 100 Py_None "x" 10 0 sample_world in
  let other_run :=
    MakeConcolicSequence (platform := lp64) 100 7 "x" 10 0 sample_world in
  raised (snd none_run) = Some PyExc_ValueError
  /\ raised (snd other_run) = Some PyExc_TypeError
  /\ raised (snd none_run) <> Some PyExc_TypeError.
Proof. vm_compute. repeat split. discriminate. Qed.

Lemma MakeConcolicDict_Tuple_count_witness :
  (let run := MakeConcolicDict (platform := lp64) 100 4 "d" sample_world in
   fst run = Ok (Some 4%nat)
   /\ s2e_log (snd run)
      = [make_concolic (SizeField 4 1) 8 "d.l#size";
         assume (Ge (SizeField 4 1) 0);
         assume (Lt (SizeField 4 1) 100)]
   /\ MakeConcolicSequence (platform := lp64) 100 4 "d" 0 3 sample_world = run)
  /\ (let run := MakeConcolicTuple (platform := lp64) 100 5 "t" sample_world in
      fst run = Ok (Some 5%nat)
      /\ s2e_log (snd run)
         = [make_concolic (SizeField 5 3) 8 "t.l#size";
            assume (Ge (SizeField 5 3) 0);
            assume (Lt (SizeField 5 3) 100)]
      /\ MakeConcolicSequence (platform := lp64) 100 5 "t" 0 3 sample_world = run).
Proof.
  split.
  - destruct (MakeConcolicDict_Tuple_count (platform := lp64) 100 4 "d"
                sample_world eq_refl) as (Hdict & _).
    destruct (Hdict [(1, 2)]%nat (ex_intro _ 1%Z eq_refl))
      as (Hresult & Hlog & _ & Hseq).
    cbv zeta. split; [exact Hresult | split; [exact Hlog|]].
    apply Hseq; [lia | discriminate].
  - destruct (MakeConcolicDict_Tuple_count (platform := lp64) 100 5 "t"
                sample_world eq_refl) as (_ & Htuple).
    destruct (Htuple [2; 2; 1]%nat (ex_intro _ 1%Z eq_refl))
      as (Hresult & Hlog & _ & Hseq).
    cbv zeta. split; [exact Hresult | split; [exact Hlog|]].
    apply Hseq; [lia | discriminate].
Defined.

Lemma marked_object_identity_witness :
  (let run := MakeConcolicList (platform := lp64) 3 "l" 10 0 sample_world in
   fst run = Ok (Some 3%nat)
   /\ nth_error (heap (snd run)) 3
      = Some (mkObject 2 (PyListObject [1; 2]%nat)))
  /\ (let run := MakeConcolicString (platform := lp64) 1 "s" 10 0 sample_world in
      fst run = Ok (Some 8%nat)
      /\ 8 <> 1
      /\ points_to (snd run) 8 (PyStringObject "hello")
      /\ points_to (snd run) 1 (PyStringObject "hello"))
  /\ (let run :=
        MakeConcolicUnicode (platform := lp64) 6 "u" 10 0 sample_world in
      fst run = Ok (Some 8%nat)
      /\ 8 <> 6
      /\ points_to (snd run) 8 (PyUnicodeObject [104; 105]%Z)
      /\ points_to (snd run) 6 (PyUnicodeObject [104; 105]%Z)).
Proof.
  split; [|split].
  - destruct (marked_object_identity (platform := lp64) 3 "l" 10 0 sample_world)
      as (Hlist & _).
    exact (Hlist [1; 2]%nat 1%Z eq_refl eq_refl).
  - destruct (marked_object_identity (platform := lp64) 1 "s" 10 0 sample_world)
      as (_ & Hstring & _).
    exact (Hstring "hello" (ex_intro _ 1%Z eq_refl) eq_refl eq_refl).
  - destruct (marked_object_identity (platform := lp64) 6 "u" 10 0 sample_world)
      as (_ & _ & Hunicode & _).
    exact (Hunicode [104; 105]%Z (ex_intro _ 1%Z eq_refl) eq_refl eq_refl).
Defined.

(** * Further properties of the naming protocol *)

Lemma rfind_None_occurs (c : ascii) (s : string) :
  StdString.rfind c s = None -> StdString.occurs c s = false.
Proof.
  induction s as [|a s IH]; simpl; [reflexivity|].
  destruct (StdString.rfind c s); [discriminate|].
  destruct (Ascii.eqb a c); [discriminate|]. intros _. now rewrite IH.
Qed.

(** The position [rfind] gives splits the string around the last
    occurrence. *)
Lemma rfind_Some (c : ascii) (s : string) (i : nat) :
  StdString.rfind c s = Some i ->
  exists a b, s = (a ++ String c b)%string
              /\ String.length a = i
              /\ StdString.occurs c b = false.
Proof.
  revert i. induction s as [|x s IH]; simpl; intros i; [discriminate|].
  destruct (StdString.rfind c s) as [j|] eqn:Hr.
  - intros [= <-]. destruct (IH j eq_refl) as (a & b & -> & Hlen & Hb).
    exists (String x a), b. simpl. auto.
  - destruct (Ascii.eqb_spec x c) as [->|]; [|discriminate].
    intros [= <-]. exists EmptyString, s. simpl.
    auto using rfind_None_occurs.
Qed.

Lemma substring_length_le (n : nat) (s : string) :
  String.length (substring 0 n s) <= n.
Proof.
  revert s; induction n as [|n IH]; intros [|c s]; simpl; try lia.
  specialize (IH s). lia.
Qed.

Lemma substring_occurs (c : ascii) (n : nat) (s : string) :
  StdString.occurs c s = false -> StdString.occurs c (substring 0 n s) = false.
Proof.
  revert s; induction n as [|n IH]; intros [|a s]; simpl; auto.
  intros H. apply orb_false_iff in H as [Ha Hs]. now rewrite Ha, IH.
Qed.

Lemma substring_within (n : nat) (a b : string) :
  n <= String.length a -> substring 0 n (a ++ b) = substring 0 n a.
Proof.
  revert a; induction n as [|n IH]; intros [|c a] Hn; simpl in *; try lia.
  - destruct b; reflexivity.
  - reflexivity.
  - now rewrite IH by lia.
Qed.

Lemma c_str_length_le (s : string) : String.length (c_str s) <= String.length s.
Proof.
  induction s as [|a s IH]; simpl; [lia|].
  destruct (Ascii.eqb a NUL); simpl; lia.
Qed.

Lemma c_str_is_c_string (s : string) : is_c_string (c_str s) = true.
Proof.
  unfold is_c_string. apply negb_true_iff.
  induction s as [|a s IH]; simpl; [reflexivity|].
  destruct (Ascii.eqb a NUL) eqn:Ha; simpl; [reflexivity|]. now rewrite Ha, IH.
Qed.

Lemma tag_char_injective (t t' : KindTag) : tag_char t = tag_char t' -> t = t'.
Proof. destruct t, t'; simpl; intros H; try reflexivity; discriminate. Qed.

(** X1.  A name without ['.'] is all key: [DecodeArrayName] leaves the value
    and the type as its caller initialised them, so [DecodeAssignment] gets
    the empty value and the type ['b']. *)
Theorem decode_without_dot (name : string) (out : assignment_name) :
  StdString.occurs "." name = false ->
  DecodeArrayName name out = Ok (mkAssgn name (assgn_value out) (assgn_type out))
  /\ decode name = Ok (mkAssgn name "" "b").
Proof.
  intros Hdot. unfold decode, DecodeArrayName.
  rewrite (rfind_absent _ _ Hdot). split; reflexivity.
Qed.

Lemma decode_without_dot_witness :
  DecodeArrayName "abc" (mkAssgn "k" "v" "i") = Ok (mkAssgn "abc" "v" "i")
  /\ decode "abc" = Ok (mkAssgn "abc" "" "b").
Proof. apply (decode_without_dot "abc" (mkAssgn "k" "v" "i")). reflexivity. Defined.

(** X2.  Decoding loses nothing of a name: whenever [decode] returns, the
    name is the key alone (no ['.']), or [key.T#value] with a non-empty
    value, or [key.value] with the type ['b'] and a value of two characters
    or more whose second is not ['#']; the value never holds a ['.']. *)
Theorem decode_rebuilds (name key value : string) (type : ascii) :
  decode name = Ok (mkAssgn key value type) ->
  (name = key /\ value = ""%string /\ type = "b"%char
   /\ StdString.occurs "." name = false)
  \/ (name = (key ++ "." ++ String type ("#" ++ value))%string
      /\ value <> ""%string /\ StdString.occurs "." value = false)
  \/ (name = (key ++ "." ++ value)%string /\ type = "b"%char
      /\ StdString.occurs "." value = false
      /\ exists a c rest, value = String a (String c rest) /\ c <> "#"%char).
Proof.
  destruct (StdString.rfind "." name) as [i|] eqn:Hr.
  - destruct (rfind_Some _ _ _ Hr) as (a & b & -> & _ & Hb).
    change (a ++ String "." b)%string with (a ++ "." ++ b)%string.
    rewrite (decode_split _ _ Hb). unfold decode_remainder.
    destruct b as [|x [|y rest]]; try discriminate.
    cbn -[Ascii.eqb]. destruct (Ascii.eqb_spec y "#") as [->|Hy].
    + destruct rest as [|z rest]; [discriminate|].
      unfold StdString.substr. cbn -[Ascii.eqb]. rewrite substring_all.
      intros [= <- <- <-]. right; left. repeat split; [discriminate|].
      cbn -[Ascii.eqb] in Hb. apply orb_false_iff in Hb as [_ Hb].
      apply orb_false_iff in Hb as [_ Hb]. exact Hb.
    + intros [= <- <- <-]. right; right. repeat split; [exact Hb|].
      exists x, y, rest. auto.
  - pose proof (rfind_None_occurs _ _ Hr) as Hdot.
    destruct (decode_without_dot name (mkAssgn "" "" "b") Hdot) as [_ ->].
    intros [= <- <- <-]. left. auto.
Qed.

Lemma decode_rebuilds_witness :
  "req.body.s#value"%string
  = ("req.body" ++ "." ++ String "s" ("#" ++ "value"))%string.
Proof.
  destruct (decode_rebuilds "req.body.s#value" "req.body" "value" "s" eq_refl)
    as [(H & _) | [(H & _) | (H & _)]]; [discriminate H | exact H | discriminate H].
Defined.

(** X3.  The name [MakeConcolicBuffer] passes to the engine never exceeds the
    255 bytes its buffer holds before the NUL, and holds no NUL. *)
Theorem obj_name_bounded (base_name : string) (type : ascii) (name : string) :
  String.length (obj_name base_name type name) <= 255
  /\ is_c_string (obj_name base_name type name) = true.
Proof.
  unfold obj_name. split; [|apply c_str_is_c_string].
  eapply Nat.le_trans; [apply c_str_length_le | apply substring_length_le].
Qed.

(** X4.  A base name of 255 bytes or more takes the whole buffer: the name
    passed to the engine is the first 255 bytes of the base, whatever the type
    and the role, so the value and the size of a variable, and any two
    variables with such a common prefix, get one and the same name. *)
Theorem obj_name_truncated (base_name : string) (type type' : ascii)
        (name name' : string) :
  is_c_string base_name = true ->
  255 <= String.length base_name ->
  obj_name base_name type name = substring 0 255 base_name
  /\ obj_name base_name type name = obj_name base_name type' name'.
Proof.
  intros Hc Hlen.
  assert (forall t n, obj_name base_name t n = substring 0 255 base_name) as H.
  { intros t n. unfold obj_name. rewrite (c_str_id _ Hc).
    rewrite substring_within by exact Hlen.
    apply c_str_id. unfold is_c_string in *.
    apply negb_true_iff in Hc. apply negb_true_iff.
    now apply substring_occurs. }
  split; [apply H | now rewrite !H].
Qed.

Lemma obj_name_truncated_witness :
  obj_name (replicate 260 "a") "s" "value" = substring 0 255 (replicate 260 "a")
  /\ obj_name (replicate 260 "a") "s" "value"
     = obj_name (replicate 260 "a") "l" "size".
Proof.
  apply (obj_name_truncated (replicate 260 "a") "s" "l" "value" "size");
    [reflexivity | simpl; lia].
Defined.

(** X5.  Within the limit of 255 bytes, distinct variables get distinct
    names: for C strings, with qualifiers not empty and free of ['.'], two
    triples encoded to the same name are the same triple. *)
Theorem encode_injective (base base' qualifier qualifier' : string)
        (tag tag' : KindTag) :
  is_c_string base = true -> is_c_string qualifier = true ->
  is_c_string base' = true -> is_c_string qualifier' = true ->
  qualifier <> ""%string -> qualifier' <> ""%string ->
  StdString.occurs "." qualifier = false ->
  StdString.occurs "." qualifier' = false ->
  String.length base + 3 + String.length qualifier <= 255 ->
  String.length base' + 3 + String.length qualifier' <= 255 ->
  encode base qualifier tag = encode base' qualifier' tag' ->
  base = base' /\ qualifier = qualifier' /\ tag = tag'.
Proof.
  intros Hb Hq Hb' Hq' Hne Hne' Hdot Hdot' Hlen Hlen' Heq.
  apply (f_equal decode) in Heq.
  rewrite !encode_fits in Heq by assumption.
  rewrite !decode_tagged in Heq by auto using tag_char_not_dot.
  injection Heq as -> -> Ht. auto using tag_char_injective.
Qed.

Lemma encode_injective_witness :
  "req.body"%string = "req.body"%string
  /\ "value"%string = "value"%string
  /\ ByteString = ByteString.
Proof.
  apply (encode_injective "req.body" "req.body" "value" "value"
                          ByteString ByteString);
    try reflexivity; try discriminate; simpl; lia.
Defined.

(** * Further properties of the size policy and of the marking functions *)

(** X6.  [ConstrainObjectSize] with a negative [min_size] fails its assertion
    and issues nothing.  Otherwise, the interpreter's flag on, it assumes
    [size <= max_size] only when [max_size > 0], and then always
    [size >= min_size]; the flag off, it issues nothing. *)
Theorem ConstrainObjectSize_spec (size : buffer) (max_size min_size : Z)
        (w : World) :
  ((min_size < 0)%Z ->
   ConstrainObjectSize size max_size min_size w
   = (Fail (AssertionFailed "min_size >= 0"), w))
  /\ ((0 <= min_size)%Z ->
      fst (ConstrainObjectSize size max_size min_size w) = Ok tt
      /\ s2e_log (snd (ConstrainObjectSize size max_size min_size w))
         = (s2e_log w
            ++ (if Py_EnableS2EFlag w
                then (if (max_size >? 0)%Z then [assume (Le size max_size)] else [])
                     ++ [assume (Ge size min_size)]
                else []))%list).
Proof.
  unfold ConstrainObjectSize, assertM, lift, assert, s2e_assume. split.
  - intros Hmin. case_cond. reflexivity.
  - intros Hmin. case_cond. step.
    destruct (Py_EnableS2EFlag w) eqn:Hf;
      destruct (max_size >? 0)%Z;
      repeat (progress (step; rewrite ?Hf));
      rewrite <- ?app_assoc, ?app_nil_r; split; reflexivity.
Qed.

Lemma ConstrainObjectSize_spec_witness :
  ConstrainObjectSize (SizeField 1 5) 10 (-1) sample_world
  = (Fail (AssertionFailed "min_size >= 0"), sample_world)
  /\ s2e_log (snd (ConstrainObjectSize (SizeField 1 5) 0 1 sample_world))
     = [assume (Ge (SizeField 1 5) 1)].
Proof.
  split.
  - apply (ConstrainObjectSize_spec (SizeField 1 5) 10 (-1) sample_world). lia.
  - destruct (ConstrainObjectSize_spec (SizeField 1 5) 0 1 sample_world)
      as (_ & Hok).
    apply Hok. lia.
Defined.

Section MoreMarkingProperties.

Context {platform : Platform}.
Variable max_symbolic_size_ : Z.

Ltac holds_cases :=
  eexists; split;
  [ rewrite <- ?app_assoc; first [reflexivity | symmetry; apply app_nil_r]
  | cbn [assumptions forallb expr_holds buffer_value app];
    rewrite ?andb_true_iff; repeat split;
    first [apply Z.geb_le; lia | apply Z.leb_le; lia] ].

(** X7.  [MakeConcolicInt], [MakeConcolicString] and [MakeConcolicList] only
    assume what they checked: whatever the object, the bounds and the state,
    every expression they pass to [s2e_assume] holds of the concrete value, so
    the constraint is satisfiable. *)
Theorem checked_assumptions_hold (r : request) (w : World) :
  checks_bounds r = true ->
  exists issued,
    s2e_log (snd (mark max_symbolic_size_ r w)) = (s2e_log w ++ issued)%list
    /\ forallb expr_holds (assumptions issued) = true.
Proof.
  destruct r; try discriminate; intros _; unfold mark; unfold_session;
    unfold CheckObjectSize, assert;
    crunch; rewrite ?substring_length_all; holds_cases.
Qed.

(** X8.  [MakeConcolicDict] and [MakeConcolicTuple] assume the bound
    [count < max_symbolic_size_] without checking it: on an object with
    [max_symbolic_size_] elements or more they still return the object, and
    the last expression they assume is false of the concrete count. *)
Theorem unchecked_count_bound (target : ref) (name : string) (w : World) :
  Py_EnableS2EFlag w = true ->
  (forall table,
      points_to w target (PyDictObject table) ->
      (max_symbolic_size_ <= Z.of_nat (List.length table))%Z ->
      let run := MakeConcolicDict max_symbolic_size_ target name w in
      let bound :=
        Lt (SizeField target (Z.of_nat (List.length table))) max_symbolic_size_ in
      fst run = Ok (Some target)
      /\ last (s2e_log (snd run)) (assume bound) = assume bound
      /\ In (assume bound) (s2e_log (snd run))
      /\ expr_holds bound = false)
  /\ (forall items,
      points_to w target (PyTupleObject items) ->
      (max_symbolic_size_ <= Z.of_nat (List.length items))%Z ->
      let run := MakeConcolicTuple max_symbolic_size_ target name w in
      let bound :=
        Lt (SizeField target (Z.of_nat (List.length items))) max_symbolic_size_ in
      fst run = Ok (Some target)
      /\ last (s2e_log (snd run)) (assume bound) = assume bound
      /\ In (assume bound) (s2e_log (snd run))
      /\ expr_holds bound = false).
Proof.
  intros Hf. split; intros body [rc Ht] Hcount run bound; subst run bound;
    unfold_session; crunch;
    (split; [reflexivity|]);
    (split; [now rewrite last_last|]);
    (split; [apply in_or_app; right; left; reflexivity|]);
    cbn [expr_holds buffer_value]; apply Z.ltb_ge; lia.
Qed.

(** X9.  When the engine is not active (the interpreter's flag off, or no
    engine answering), the two entry points return NULL with the
    [RuntimeError] "Not in symbolic mode" and do nothing else:
    [MakeConcolicSequence] does not even look at its argument. *)
Theorem marking_requires_engine (target : ref) (name : string)
        (max min : Z) (w : World) :
  engine_active w = false ->
  let refused :=
    (Ok NULL,
     set_curexc (Some (PyExc_RuntimeError, "Not in symbolic mode")) w) in
  MakeConcolicSequence max_symbolic_size_ target name max min w = refused
  /\ (forall value,
         points_to w target (PyIntObject value) ->
         MakeConcolicInt target name max min w = refused).
Proof.
  intros Ha refused. subst refused.
  assert ((if Py_EnableS2EFlag w then s2e_engine_version w else 0%Z) = 0%Z)
    as Hversion.
  { unfold engine_active in Ha. destruct (Py_EnableS2EFlag w); [|reflexivity].
    cbn in Ha. apply negb_false_iff, Z.eqb_eq in Ha. exact Ha. }
  split.
  - unfold MakeConcolicSequence, s2e_version, PyErr_SetString.
    cbn [bind ret Monad_M]. rewrite Hversion. reflexivity.
  - intros value [rc Ht].
    unfold MakeConcolicInt, PyInt_Check, type_check, deref, assertM, lift,
      assert, s2e_version, PyErr_SetString.
    cbn [bind ret Monad_M]. rewrite Ht. cbn [bind ret Monad_M ob_body].
    rewrite Hversion. reflexivity.
Qed.

(** X10.  With the engine active, a negative [min_size] makes
    [MakeConcolicSequence] return NULL with the [ValueError] "Minimum size
    cannot be negative" whatever its argument, [None] and objects of
    unsupported types included: the bound is checked before the argument. *)
Theorem MakeConcolicSequence_negative_min (target : ref) (name : string)
        (max_size min_size : Z) (w : World) :
  engine_active w = true ->
  (min_size < 0)%Z ->
  MakeConcolicSequence max_symbolic_size_ target name max_size min_size w
  = (Ok NULL,
     set_curexc
       (Some (PyExc_ValueError, "Minimum size cannot be negative")) w).
Proof.
  intros Ha Hmin. rewrite MakeConcolicSequence_dispatch by exact Ha.
  apply Z.ltb_lt in Hmin. now rewrite Hmin.
Qed.

(** X11.  A string, unicode string or list whose size [CheckObjectSize]
    rejects makes its marking function return NULL with the [ValueError]
    "Incompatible size constraints"; nothing is allocated, nothing is issued
    to the engine and no object changes. *)
Theorem rejected_size (target : ref) (name : string) (max_size min_size : Z)
        (w : World) :
  let rejected :=
    (Ok NULL,
     set_curexc (Some (PyExc_ValueError, "Incompatible size constraints")) w) in
  (forall s,
      points_to w target (PyStringObject s) ->
      CheckObjectSize (Z.of_nat (String.length s)) max_size min_size
      = Ok (-1)%Z ->
      MakeConcolicString target name max_size min_size w = rejected)
  /\ (forall u,
      points_to w target (PyUnicodeObject u) ->
      CheckObjectSize (Z.of_nat (List.length u)) max_size min_size
      = Ok (-1)%Z ->
      MakeConcolicUnicode target name max_size min_size w = rejected)
  /\ (forall items,
      points_to w target (PyListObject items) ->
      CheckObjectSize (Z.of_nat (List.length items)) max_size min_size
      = Ok (-1)%Z ->
      MakeConcolicList target name max_size min_size w = rejected).
Proof.
  intros rejected. subst rejected.
  repeat split; intros body [rc Ht] Hc; unfold_session; crunch; reflexivity.
Qed.

(** X12.  A list whose size is accepted: [MakeConcolicList] returns the list
    itself; with [max_size >= 0] it registers the size field and constrains
    it, with [max_size < 0] it issues nothing; and the only change to the
    objects is one more owner of the list. *)
Theorem MakeConcolicList_accepted (target : ref) (name : string)
        (max_size min_size : Z) (items : list ref) (refcnt : Z) (w : World) :
  Py_EnableS2EFlag w = true ->
  nth_error (heap w) target = Some (mkObject refcnt (PyListObject items)) ->
  CheckObjectSize (Z.of_nat (List.length items)) max_size min_size = Ok 0%Z ->
  let run := MakeConcolicList target name max_size min_size w in
  fst run = Ok (Some target)
  /\ s2e_log (snd run)
     = (s2e_log w
        ++ (if (max_size >=? 0)%Z
            then size_sequence target (Z.of_nat (List.length items)) name
                               max_size min_size
            else []))%list
  /\ heap (snd run)
     = list_update target (mkObject (refcnt + 1) (PyListObject items)) (heap w)
  /\ curexc (snd run) = curexc w.
Proof.
  intros Hf Ht Hc run. subst run.
  pose proof (CheckObjectSize_min _ _ _ _ Hc) as Hmin.
  unfold size_sequence, encode. unfold_session. crunch;
    rewrite <- ?app_assoc, ?app_nil_r; repeat split.
Qed.

(** X13.  No marking function changes an object it is not given: whatever the
    request and the state, the objects are afterwards as before, or there is
    one new object after them (the integer or string constructed), or the
    target has one more owner. *)
Theorem marking_frame (r : request) (w : World) :
  let heap' := heap (snd (mark max_symbolic_size_ r w)) in
  heap' = heap w
  \/ (exists o, heap' = (heap w ++ [o])%list)
  \/ (exists o,
         nth_error (heap w) (request_target r) = Some o
         /\ heap' = list_update (request_target r)
                      (mkObject (ob_refcnt o + 1) (ob_body o)) (heap w)).
Proof.
  destruct r; unfold mark; unfold_session; unfold CheckObjectSize, assert;
    cbn [request_target]; crunch;
    first [ left; reflexivity
          | right; left; eexists; reflexivity
          | right; right; eexists; split; reflexivity ].
Qed.

(** X14.  A string whose size is accepted, the interpreter's flag on and its
    two allocations succeeding: [MakeConcolicString] registers the copy of
    the characters, then, when [max_size >= 0], the size field of the new
    string and its constraints; the new string has the characters of the
    given one, is the only new object, and is what is returned. *)
Theorem MakeConcolicString_accepted (target : ref) (name : string)
        (max_size min_size : Z) (s : string) (w : World) :
  Py_EnableS2EFlag w = true ->
  allocs_ok 2 w = true ->
  points_to w target (PyStringObject s) ->
  CheckObjectSize (Z.of_nat (String.length s)) max_size min_size = Ok 0%Z ->
  let run := MakeConcolicString target name max_size min_size w in
  let fresh := List.length (heap w) in
  fst run = Ok (Some fresh)
  /\ s2e_log (snd run)
     = (s2e_log w
        ++ value_registration (PyStringObject s) name
        ++ (if (max_size >=? 0)%Z
            then size_sequence fresh (Z.of_nat (String.length s)) name
                               max_size min_size
            else []))%list
  /\ heap (snd run) = (heap w ++ [mkObject 1 (PyStringObject s)])%list
  /\ curexc (snd run) = curexc w.
Proof.
  intros Hf Hallocs [rc Ht] Hc run fresh. subst run fresh.
  pose proof (CheckObjectSize_min _ _ _ _ Hc) as Hmin.
  unfold allocs_ok in Hallocs.
  destruct (alloc_faults w) as [|[] [|[] l]] eqn:Hfaults; try discriminate;
    clear Hallocs; unfold value_registration, size_sequence, encode;
    unfold_session; rewrite ?substring_length_all;
    crunch; rewrite ?substring_length_all, <- ?app_assoc, ?app_nil_r;
    repeat split.
Qed.

(** X15.  The same for a unicode string, on a platform where code units have
    a size and the size in bytes of the string fits [Py_ssize_t]: the code
    units are registered, the new string has them all, and its length field
    is what is constrained. *)
Theorem MakeConcolicUnicode_accepted (target : ref) (name : string)
        (max_size min_size : Z) (u : list Z) (w : World) :
  (0 < sizeof_Py_UNICODE)%Z ->
  (0 < sizeof_Py_ssize_t)%Z ->
  (Z.of_nat (List.length u) * sizeof_Py_UNICODE
   < 2 ^ (8 * sizeof_Py_ssize_t - 1))%Z ->
  Py_EnableS2EFlag w = true ->
  allocs_ok 2 w = true ->
  points_to w target (PyUnicodeObject u) ->
  CheckObjectSize (Z.of_nat (List.length u)) max_size min_size = Ok 0%Z ->
  let run := MakeConcolicUnicode target name max_size min_size w in
  let fresh := List.length (heap w) in
  fst run = Ok (Some fresh)
  /\ s2e_log (snd run)
     = (s2e_log w
        ++ [make_concolic (UnicodeData u)
                          (to_int (Z.of_nat (List.length u) * sizeof_Py_UNICODE))
                          (encode name "value" UnicodeString)]
        ++ (if (max_size >=? 0)%Z
            then size_sequence fresh (Z.of_nat (List.length u)) name
                               max_size min_size
            else []))%list
  /\ heap (snd run) = (heap w ++ [mkObject 1 (PyUnicodeObject u)])%list
  /\ curexc (snd run) = curexc w.
Proof.
  intros Hunit Hsize Hfits Hf Hallocs [rc Ht] Hc run fresh. subst run fresh.
  pose proof (CheckObjectSize_min _ _ _ _ Hc) as Hmin.
  destruct (unicode_copy_all u Hunit Hsize Hfits) as [Hcopy _].
  unfold unicode_copy, unicode_buf_size in Hcopy.
  assert (to_Py_ssize_t (Z.of_nat (List.length u) * sizeof_Py_UNICODE)
          = (Z.of_nat (List.length u) * sizeof_Py_UNICODE)%Z) as Hsz.
  { unfold to_Py_ssize_t. apply wrap_signed_small; lia. }
  unfold allocs_ok in Hallocs.
  destruct (alloc_faults w) as [|[] [|[] l]] eqn:Hfaults; try discriminate;
    clear Hallocs; unfold size_sequence, encode;
    unfold_session; crunch;
    rewrite ?Hcopy, ?Hsz, ?firstn_length_all, <- ?app_assoc, ?app_nil_r;
    repeat split.
Qed.

End MoreMarkingProperties.

Lemma checked_assumptions_hold_witness :
  exists issued,
    s2e_log (snd (mark (platform := lp64) 100 (MarkString 1 "req.body" 10 1)
                       sample_world))
    = (s2e_log sample_world ++ issued)%list
    /\ forallb expr_holds (assumptions issued) = true.
Proof.
  exact (checked_assumptions_hold (platform := lp64) 100
           (MarkString 1 "req.body" 10 1) sample_world eq_refl).
Defined.

Lemma unchecked_count_bound_witness :
  fst (MakeConcolicDict (platform := lp64) 1 4 "d" sample_world)
  = Ok (Some 4%nat)
  /\ expr_holds (Lt (SizeField 4 1) 1) = false
  /\ fst (MakeConcolicTuple (platform := lp64) 2 5 "t" sample_world)
     = Ok (Some 5%nat)
  /\ expr_holds (Lt (SizeField 5 3) 2) = false.
Proof.
  destruct (unchecked_count_bound (platform := lp64) 1 4 "d" sample_world
              eq_refl) as (Hdict & _).
  destruct (Hdict [(1, 2)]%nat (ex_intro _ 1%Z eq_refl) ltac:(simpl; lia))
    as (Hd & _ & _ & Hdb).
  destruct (unchecked_count_bound (platform := lp64) 2 5 "t" sample_world
              eq_refl) as (_ & Htuple).
  destruct (Htuple [2; 2; 1]%nat (ex_intro _ 1%Z eq_refl) ltac:(simpl; lia))
    as (Ht & _ & _ & Htb).
  split; [exact Hd | split; [exact Hdb | split; [exact Ht | exact Htb]]].
Defined.

Lemma marking_requires_engine_witness :
  MakeConcolicSequence (platform := lp64) 100 1 "s" 10 0 idle_world
  = (Ok NULL,
     set_curexc (Some (PyExc_RuntimeError, "Not in symbolic mode")) idle_world)
  /\ MakeConcolicInt (platform := lp64) 2 "n" 10 0 idle_world
     = (Ok NULL,
        set_curexc (Some (PyExc_RuntimeError, "Not in symbolic mode"))
                   idle_world).
Proof.
  destruct (marking_requires_engine (platform := lp64) 100 1 "s" 10 0
              idle_world eq_refl) as (Hseq & _).
  destruct (marking_requires_engine (platform := lp64) 100 2 "n" 10 0
              idle_world eq_refl) as (_ & Hint).
  split; [exact Hseq | exact (Hint 7%Z (ex_intro _ 1%Z eq_refl))].
Defined.

Lemma MakeConcolicSequence_negative_min_witness :
  MakeConcolicSequence (platform := lp64) 100 Py_None "x" 10 (-1) sample_world
  = (Ok NULL,
     set_curexc (Some (PyExc_ValueError, "Minimum size cannot be negative"))
                sample_world).
Proof.
  apply (MakeConcolicSequence_negative_min (platform := lp64) 100 Py_None "x"
           10 (-1) sample_world); [reflexivity | lia].
Defined.

Lemma rejected_size_witness :
  MakeConcolicString (platform := lp64) 1 "s" 3 0 sample_world
  = (Ok NULL,
     set_curexc (Some (PyExc_ValueError, "Incompatible size constraints"))
                sample_world)
  /\ MakeConcolicUnicode (platform := lp64) 6 "u" 1 0 sample_world
     = (Ok NULL,
        set_curexc (Some (PyExc_ValueError, "Incompatible size constraints"))
                   sample_world)
  /\ MakeConcolicList (platform := lp64) 3 "l" 0 5 sample_world
     = (Ok NULL,
        set_curexc (Some (PyExc_ValueError, "Incompatible size constraints"))
                   sample_world).
Proof.
  destruct (rejected_size (platform := lp64) 1 "s" 3 0 sample_world)
    as (Hstring & _).
  destruct (rejected_size (platform := lp64) 6 "u" 1 0 sample_world)
    as (_ & Hunicode & _).
  destruct (rejected_size (platform := lp64) 3 "l" 0 5 sample_world)
    as (_ & _ & Hlist).
  split; [|split].
  - exact (Hstring "hello"%string (ex_intro _ 1%Z eq_refl) eq_refl).
  - exact (Hunicode [104; 105]%Z (ex_intro _ 1%Z eq_refl) eq_refl).
  - exact (Hlist [1; 2]%nat (ex_intro _ 1%Z eq_refl) eq_refl).
Defined.

Lemma MakeConcolicList_accepted_witness :
  let run := MakeConcolicList (platform := lp64) 3 "l" 0 1 sample_world in
  fst run = Ok (Some 3%nat)
  /\ s2e_log (snd run)
     = [make_concolic (SizeField 3 2) 8 "l.l#size"; assume (Ge (SizeField 3 2) 1)]
  /\ nth_error (heap (snd run)) 3 = Some (mkObject 2 (PyListObject [1; 2]%nat)).
Proof.
  destruct (MakeConcolicList_accepted (platform := lp64) 3 "l" 0 1 [1; 2]%nat 1
              sample_world eq_refl eq_refl eq_refl) as (Hr & Hlog & Hheap & _).
  cbv zeta. split; [exact Hr | split; [exact Hlog|]].
  rewrite Hheap. reflexivity.
Defined.

Lemma MakeConcolicString_accepted_witness :
  let run := MakeConcolicString (platform := lp64) 1 "s" (-1) 0 sample_world in
  fst run = Ok (Some 8%nat)
  /\ s2e_log (snd run) = [make_concolic (CharData "hello") 5 "s.s#value"].
Proof.
  destruct (MakeConcolicString_accepted (platform := lp64) 1 "s" (-1) 0 "hello"
              sample_world eq_refl eq_refl (ex_intro _ 1%Z eq_refl) eq_refl)
    as (Hr & Hlog & _).
  split; [exact Hr | exact Hlog].
Defined.

Lemma MakeConcolicUnicode_accepted_witness :
  let run := MakeConcolicUnicode (platform := lp64) 6 "u" 0 1 sample_world in
  fst run = Ok (Some 8%nat)
  /\ s2e_log (snd run)
     = [make_concolic (UnicodeData [104; 105]%Z) 8 "u.u#value";
        make_concolic (SizeField 8 2) 8 "u.l#size";
        assume (Ge (SizeField 8 2) 1)].
Proof.
  destruct (MakeConcolicUnicode_accepted (platform := lp64) 6 "u" 0 1
              [104; 105]%Z sample_world
              ltac:(reflexivity) ltac:(reflexivity) ltac:(reflexivity)
              eq_refl eq_refl (ex_intro _ 1%Z eq_refl) eq_refl)
    as (Hr & Hlog & _).
  split; [exact Hr | exact Hlog].
Defined.

(** * The range of a symbolic integer *)

Lemma to_int_id (z : Z) : is_int z -> to_int z = z.
Proof.
  unfold is_int, to_int, wrap_signed. intros Hz.
  change (2 ^ (32 - 1))%Z with 2147483648%Z in *.
  change (2 ^ 32)%Z with 4294967296%Z.
  change (2 ^ 31)%Z with 2147483648%Z in Hz.
  rewrite Z.mod_small by lia. lia.
Qed.

Lemma to_unsigned_nonneg (z : Z) :
  (0 <= z < 2 ^ 31)%Z -> to_unsigned z = z.
Proof.
  unfold to_unsigned. change (2 ^ 32)%Z with 4294967296%Z.
  change (2 ^ 31)%Z with 2147483648%Z. intros Hz.
  apply Z.mod_small. lia.
Qed.

Lemma to_unsigned_neg (z : Z) :
  (- 2 ^ 31 <= z < 0)%Z -> to_unsigned z = (z + 2 ^ 32)%Z.
Proof.
  unfold to_unsigned. change (2 ^ 32)%Z with 4294967296%Z.
  change (2 ^ 31)%Z with 2147483648%Z. intros Hz.
  symmetry. apply (Z.mod_unique_pos _ _ (-1)); lia.
Qed.

(** X16.  [s2e_range] keeps its contract: on [int] arguments, whenever it
    returns, the value is in [[start, end)]; it kills the state with status 1
    exactly when the range is empty; and for a non-empty range a value of the
    symbolic integer within it is returned (the single value of a range of
    one, without asking the engine), a value outside it kills the state.  The
    unsigned comparison used when [start] is 0 rejects the negative values
    too. *)
Theorem s2e_range_spec (start end_ x : Z) :
  is_int start -> is_int end_ -> is_int x ->
  (forall v, s2e_range start end_ x = Returns v -> (start <= v < end_)%Z)
  /\ ((end_ <= start)%Z <->
      s2e_range start end_ x = Killed 1 "s2e_range: invalid range")
  /\ ((start < end_)%Z ->
      s2e_range start end_ x
      = if (end_ =? start + 1)%Z then Returns start
        else if (start <=? x)%Z && (x <? end_)%Z then Returns x
             else Killed 0 "s2e_range creating a constraint...").
Proof.
  unfold is_int. change (2 ^ 31)%Z with 2147483648%Z.
  intros Hs He Hx. unfold s2e_range.
  destruct (Z.geb_spec start end_) as [Hge|Hlt].
  { repeat split; try discriminate; intros; try lia. }
  rewrite to_int_id
    by (unfold is_int; change (2 ^ 31)%Z with 2147483648%Z; lia).
  assert ((if (start =? 0)%Z
           then if (to_unsigned x >=? to_unsigned end_)%Z
                then Killed 0 "s2e_range creating a constraint..."
                else Returns x
           else if (x <? start)%Z || (x >=? end_)%Z
                then Killed 0 "s2e_range creating a constraint..."
                else Returns x)
          = (if (start <=? x)%Z && (x <? end_)%Z then Returns x
             else Killed 0 "s2e_range creating a constraint...")) as Hbody.
  { destruct (Z.eqb_spec start 0) as [->|Hs0].
    - rewrite (to_unsigned_nonneg end_)
        by (change (2 ^ 31)%Z with 2147483648%Z; lia).
      destruct (Z.ltb_spec x 0) as [Hneg|Hpos].
      + rewrite to_unsigned_neg
          by (change (2 ^ 31)%Z with 2147483648%Z; lia).
        change (2 ^ 32)%Z with 4294967296%Z.
        destruct (Z.geb_spec (x + 4294967296) end_); [|lia].
        destruct (Z.leb_spec 0 x); [lia|]. reflexivity.
      + rewrite to_unsigned_nonneg
          by (change (2 ^ 31)%Z with 2147483648%Z; lia).
        destruct (Z.geb_spec x end_), (Z.leb_spec 0 x), (Z.ltb_spec x end_);
          try lia; reflexivity.
    - destruct (Z.ltb_spec x start), (Z.geb_spec x end_), (Z.leb_spec start x),
        (Z.ltb_spec x end_); try lia; reflexivity. }
  rewrite Hbody.
  rewrite (Z.eqb_sym end_ (start + 1)).
  destruct (Z.eqb_spec (start + 1) end_) as [Hone|Hmore].
  - split; [|split].
    + intros v [= <-]. lia.
    + split; [lia | discriminate].
    + reflexivity.
  - split; [|split].
    + intros v. destruct (Z.leb_spec start x), (Z.ltb_spec x end_);
        cbn [andb]; try discriminate; intros [= <-]; lia.
    + split; [lia|].
      destruct ((start <=? x)%Z && (x <? end_)%Z); discriminate.
    + reflexivity.
Qed.

Lemma s2e_range_spec_witness :
  s2e_range 0 10 (-1) = Killed 0 "s2e_range creating a constraint..."
  /\ s2e_range 3 4 99 = Returns 3%Z
  /\ (forall v, s2e_range 0 10 7 = Returns v -> (0 <= v < 10)%Z).
Proof.
  assert (is_int 0 /\ is_int 10 /\ is_int (-1) /\ is_int 3 /\ is_int 4
          /\ is_int 99 /\ is_int 7) as (H0 & H10 & Hm1 & H3 & H4 & H99 & H7)
      by (unfold is_int; change (2 ^ 31)%Z with 2147483648%Z; lia).
  destruct (s2e_range_spec 0 10 (-1) H0 H10 Hm1) as (_ & _ & Hout).
  destruct (s2e_range_spec 3 4 99 H3 H4 H99) as (_ & _ & Hone).
  destruct (s2e_range_spec 0 10 7 H0 H10 H7) as (Hin & _ & _).
  split; [apply Hout; lia | split; [apply Hone; lia | exact Hin]].
Defined.

(** * Decoding the assignments *)

Import Decoder.

Lemma string_keys_kept st st' table :
  keeps_strings st st' -> string_keys st table -> string_keys st' table.
Proof.
  intros Hk. unfold string_keys. apply Forall_impl.
  intros kv [s Hs]. exists s. now apply Hk.
Qed.

Lemma find_entry_kept st st' key table :
  keeps_strings st st' -> string_keys st table ->
  find_entry st' key table = find_entry st key table.
Proof.
  intros Hk Hkeys. induction Hkeys as [|[k v] table [s Hs] _ IH]; simpl;
    [reflexivity|].
  simpl in Hs. rewrite Hs, (Hk _ _ Hs), IH. reflexivity.
Qed.

Lemma set_entry_kept st st' key ko v table :
  keeps_strings st st' -> string_keys st table ->
  set_entry st' key ko v table = set_entry st key ko v table.
Proof.
  intros Hk Hkeys. induction Hkeys as [|[k v0] table [s Hs] _ IH]; simpl;
    [reflexivity|].
  simpl in Hs. rewrite Hs, (Hk _ _ Hs), IH. reflexivity.
Qed.

Lemma find_entry_set_same st key ko v table :
  string_at st ko = Some key ->
  find_entry st key (set_entry st key ko v table) = Some v.
Proof.
  intros Hko. induction table as [|[k v0] table IH]; simpl.
  - now rewrite Hko, String.eqb_refl.
  - destruct (string_at st k) as [s|] eqn:Hs; simpl.
    + destruct (String.eqb s key) eqn:He; simpl; rewrite Hs, He; auto.
    + rewrite Hs. exact IH.
Qed.

Lemma find_entry_set_other st key key' ko v table :
  string_at st ko = Some key -> key' <> key ->
  find_entry st key' (set_entry st key ko v table) = find_entry st key' table.
Proof.
  intros Hko Hne. apply String.eqb_neq in Hne.
  induction table as [|[k v0] table IH]; simpl.
  - rewrite Hko. rewrite String.eqb_sym in Hne. now rewrite Hne.
  - destruct (string_at st k) as [s|] eqn:Hs; simpl.
    + destruct (String.eqb s key) eqn:He; simpl; rewrite Hs.
      * apply String.eqb_eq in He. subst s.
        rewrite String.eqb_sym in Hne. rewrite Hne. reflexivity.
      * now rewrite IH.
    + now rewrite Hs, IH.
Qed.

Lemma set_entry_absent st key ko v table :
  find_entry st key table = None ->
  set_entry st key ko v table = (table ++ [(ko, v)])%list.
Proof.
  induction table as [|[k v0] table IH]; simpl; [reflexivity|].
  destruct (string_at st k) as [s|].
  - destruct (String.eqb s key); [discriminate|]. intros H. now rewrite IH.
  - intros H. now rewrite IH.
Qed.

Lemma find_entry_In st key table v :
  find_entry st key table = Some v -> In v (map snd table).
Proof.
  induction table as [|[k v0] table IH]; simpl; [discriminate|].
  destruct (string_at st k) as [s|].
  - destruct (String.eqb s key); [intros [= ->]; auto | auto].
  - auto.
Qed.

(** With values all distinct, distinct keys lead to distinct values. *)
Lemma find_entry_distinct st key key' table v v' :
  NoDup (map snd table) -> key <> key' ->
  find_entry st key table = Some v ->
  find_entry st key' table = Some v' ->
  v <> v'.
Proof.
  intros Hnd Hne. induction table as [|[k v0] table IH]; simpl;
    [discriminate|].
  inversion Hnd as [|? ? Hnotin Hnd']; subst.
  destruct (string_at st k) as [s|]; [|auto].
  destruct (String.eqb s key) eqn:E; destruct (String.eqb s key') eqn:E';
    auto.
  - apply String.eqb_eq in E, E'. congruence.
  - intros [= <-] H' ->. apply Hnotin. eapply find_entry_In; eauto.
  - intros H [= <-] ->. apply Hnotin. eapply find_entry_In; eauto.
Qed.


Lemma nth_error_app_offset {A : Type} (l l' : list A) (i : nat) :
  nth_error (l ++ l') (List.length l + i) = nth_error l' i.
Proof.
  rewrite nth_error_app2 by lia. f_equal. lia.
Qed.

Lemma construct_ok (o : Object) (st : Store) :
  faults st = [] ->
  construct o st
  = (Ok (Some (List.length (objects st))), mkStore (objects st ++ [o]) []).
Proof.
  intros Hf. unfold construct, alloc_fault. cbn [bind ret Monad_D].
  rewrite Hf. cbn. now rewrite Hf.
Qed.

Section Facts.
Context {platform : Platform}.

Lemma converted_not_dict value t obj :
  converted value t = Some obj -> forall table, obj <> DictObject table.
Proof.
  unfold converted.
  repeat match goal with
         | |- context [if ?c then _ else _] => destruct c
         end; intros [= <-]; discriminate.
Qed.

Lemma ConvertBufferValue_converted value t obj st :
  converted value t = Some obj ->
  faults st = [] ->
  ConvertBufferValue value t st
  = (Ok (Some (List.length (objects st))), mkStore (objects st ++ [obj]) []).
Proof.
  unfold converted, ConvertBufferValue. intros Hc Hf.
  destruct (Ascii.eqb t "i").
  { destruct (Z.of_nat (String.length value) =? 4)%Z; [|discriminate].
    injection Hc as <-. cbn [bind ret Monad_D lift assert].
    apply construct_ok, Hf. }
  destruct (Ascii.eqb t "l").
  { destruct (Z.of_nat (String.length value) =? sizeof_Py_ssize_t)%Z;
      [|discriminate].
    injection Hc as <-. cbn [bind ret Monad_D lift assert].
    apply construct_ok, Hf. }
  destruct (Ascii.eqb t "s").
  { injection Hc as <-. unfold PyString_FromStringAndSize.
    rewrite substring_all. apply construct_ok, Hf. }
  destruct (Ascii.eqb t "u").
  { injection Hc as <-. apply construct_ok, Hf. }
  destruct (Ascii.eqb t "b"); [|discriminate].
  injection Hc as <-. unfold PyByteArray_FromStringAndSize.
  rewrite substring_all. apply construct_ok, Hf.
Qed.


Lemma dict_at_app st l f d table :
  dict_at st d = Some table -> dict_at (mkStore (objects st ++ l) f) d = Some table.
Proof.
  unfold dict_at. cbn [objects].
  destruct (nth_error (objects st) d) as [o|] eqn:Ho; [|discriminate].
  intros H. rewrite nth_error_app1 by (apply nth_error_Some; congruence).
  now rewrite Ho.
Qed.

Lemma keeps_strings_app st l f : keeps_strings st (mkStore (objects st ++ l) f).
Proof.
  intros p s. unfold string_at. cbn [objects].
  destruct (nth_error (objects st) p) as [o|] eqn:Ho; [|discriminate].
  intros H. rewrite nth_error_app1 by (apply nth_error_Some; congruence).
  now rewrite Ho.
Qed.

Lemma keeps_strings_update objs f f' d table table' :
  nth_error objs d = Some (DictObject table) ->
  keeps_strings (mkStore objs f) (mkStore (list_update d (DictObject table') objs) f').
Proof.
  intros Hd p s. unfold string_at. cbn [objects].
  destruct (Nat.eq_dec d p) as [<-|Hne].
  - rewrite Hd. discriminate.
  - now rewrite nth_error_list_update_neq.
Qed.

Lemma keeps_strings_trans st1 st2 st3 :
  keeps_strings st1 st2 -> keeps_strings st2 st3 -> keeps_strings st1 st3.
Proof. unfold keeps_strings. auto. Qed.

Lemma DecodeAssignment_run st d name value key q t obj table :
  dict_at st d = Some table ->
  string_keys st table ->
  (forall vd, find_entry st (c_str key) table = Some vd ->
              exists sub, dict_at st vd = Some sub) ->
  faults st = [] ->
  decode name = Ok (mkAssgn key q t) ->
  converted value t = Some obj ->
  let n := List.length (objects st) in
  let st3 := mkStore (objects st ++ [StringObject (c_str key);
                                     StringObject (c_str q); obj]) [] in
  DecodeAssignment d name value st
  = (Ok 0%Z,
     match find_entry st (c_str key) table with
     | None =>
         mkStore
           (list_update (n + 3) (DictObject [(n + 1, n + 2)])
              (list_update d (DictObject (table ++ [(n, n + 3)]))
                 (objects st3 ++ [DictObject []])))
           []
     | Some vd =>
         match dict_at st vd with
         | Some sub =>
             mkStore
               (list_update vd
                  (DictObject (set_entry st3 (c_str q) (n + 1) (n + 2) sub))
                  (objects st3))
               []
         | None => st
         end
     end).
Proof.
  intros Hd Hkeys Hsub Hf Hdec Hconv n st3.
  unfold DecodeAssignment. cbn [bind ret Monad_D lift].
  change (DecodeArrayName name (mkAssgn "" "" "b")) with (decode name).
  rewrite Hdec. cbn [assgn_key assgn_value assgn_type].
  unfold PyString_FromString.
  rewrite (construct_ok _ st Hf).
  rewrite construct_ok by reflexivity. cbn [objects].
  rewrite (ConvertBufferValue_converted _ _ _ _ Hconv) by reflexivity.
  cbn [objects]. rewrite <- !app_assoc. cbn [app].
  fold st3.
  assert (List.length (objects st ++ [StringObject (c_str key)]) = n + 1)
    as -> by (rewrite length_app; reflexivity).
  assert (List.length (objects st ++ [StringObject (c_str key);
                                      StringObject (c_str q)]) = n + 2)
    as -> by (rewrite length_app; reflexivity).
  fold n.
  assert (d < n) as Hdn.
  { unfold dict_at in Hd. apply nth_error_Some.
    destruct (nth_error (objects st) d); [discriminate | discriminate]. }
  pose proof (dict_at_app st [StringObject (c_str key);
                                 StringObject (c_str q); obj] [] d table Hd)
    as Hd3.
  fold st3 in Hd3.
  assert (keeps_strings st st3) as Hk3 by apply keeps_strings_app.
  assert (string_at st3 n = Some (c_str key)) as Hkey3.
  { unfold string_at, st3, n. cbn [objects].
    rewrite <- (Nat.add_0_r (List.length (objects st))).
    rewrite nth_error_app_offset. reflexivity. }
  assert (string_at st3 (n + 1) = Some (c_str q)) as Hq3.
  { unfold string_at, st3, n. cbn [objects].
    rewrite nth_error_app_offset. reflexivity. }
  unfold PyDict_Contains. rewrite Hd3, Hkey3.
  rewrite (find_entry_kept st st3 _ _ Hk3 Hkeys).
  destruct (find_entry st (c_str key) table) as [vd|] eqn:Hfind.
  - (* the key has its dictionary *)
    destruct (Hsub vd eq_refl) as [sub Hvd]. rewrite Hvd.
    cbn [Z.ltb Z.eqb Z.compare]. cbn iota beta.
    unfold PyDict_GetItem. rewrite Hd3, Hkey3.
    rewrite (find_entry_kept st st3 _ _ Hk3 Hkeys), Hfind.
    cbn [assert]. cbn iota beta.
    unfold PyDict_SetItem.
    pose proof (dict_at_app st [StringObject (c_str key);
                                StringObject (c_str q); obj] [] vd sub Hvd)
      as Hvd3.
    fold st3 in Hvd3. rewrite Hvd3, Hq3.
    reflexivity.
  - (* a new dictionary for the key *)
    cbn [Z.ltb Z.eqb Z.compare]. cbn iota beta.
    unfold PyDict_New. rewrite construct_ok by reflexivity.
    assert (List.length (objects st3) = n + 3) as ->
        by (unfold st3; cbn [objects]; rewrite length_app; reflexivity).
    set (st4 := mkStore (objects st3 ++ [DictObject []]) []).
    assert (keeps_strings st3 st4) as Hk4 by apply keeps_strings_app.
    unfold PyDict_SetItem at 1.
    pose proof (dict_at_app st3 [DictObject []] [] d table Hd3) as Hd4.
    fold st4 in Hd4. rewrite Hd4.
    rewrite (Hk4 _ _ Hkey3). cbn [alloc_fault faults st4 objects].
    rewrite (set_entry_kept st st4) by eauto using keeps_strings_trans.
    rewrite (set_entry_absent _ _ _ _ _ Hfind).
    cbn [Z.ltb Z.compare]. cbn iota beta.
    unfold PyDict_SetItem.
    unfold dict_at at 1. cbn [objects].
    rewrite nth_error_list_update_neq by lia.
    unfold st3 at 1. cbn [objects]. rewrite <- app_assoc. cbn [app].
    unfold n. rewrite nth_error_app_offset. cbn [nth_error]. fold n.
    unfold string_at at 1. cbn [objects].
    rewrite nth_error_list_update_neq by lia.
    unfold st3 at 1. cbn [objects]. rewrite <- app_assoc. cbn [app].
    unfold n. rewrite nth_error_app_offset. cbn [nth_error]. fold n.
    cbn [alloc_fault faults objects set_entry].
    reflexivity.
Qed.


Lemma find_entry_In_pair st key table v :
  find_entry st key table = Some v -> exists k, In (k, v) table.
Proof.
  induction table as [|[k v0] table IH]; simpl; [discriminate|].
  destruct (string_at st k) as [s|].
  - destruct (String.eqb s key).
    + intros [= ->]. eauto.
    + intros H. destruct (IH H) as [k' Hk']. eauto.
  - intros H. destruct (IH H) as [k' Hk']. eauto.
Qed.

Section Preserved.

Variables (st st' : Store) (changed : ref) (old : list (ref * ref)).
Hypothesis Hpres : preserves st st' changed.
Hypothesis Hchanged : dict_at st changed = Some old.

Lemma preserved_object p o :
  nth_error (objects st) p = Some o -> (forall t, o <> DictObject t) ->
  nth_error (objects st') p = Some o.
Proof.
  intros Hp Hleaf. rewrite Hpres; [exact Hp | | apply nth_error_Some; congruence].
  intros ->. unfold dict_at in Hchanged. rewrite Hp in Hchanged.
  destruct o; try discriminate. eapply Hleaf; reflexivity.
Qed.

Lemma preserved_strings : keeps_strings st st'.
Proof.
  intros p s. unfold string_at.
  destruct (nth_error (objects st) p) as [o|] eqn:Ho; [|discriminate].
  destruct o; try discriminate. intros [= ->].
  rewrite (preserved_object _ _ Ho); [reflexivity | discriminate].
Qed.

Lemma preserved_leaf p : leaf_at st p -> leaf_at st' p.
Proof.
  intros (o & Ho & Hleaf). exists o. split; [|exact Hleaf].
  now apply preserved_object.
Qed.

Lemma preserved_dict p t :
  p <> changed -> dict_at st p = Some t -> dict_at st' p = Some t.
Proof.
  intros Hne. unfold dict_at.
  destruct (nth_error (objects st) p) as [o|] eqn:Ho; [|discriminate].
  rewrite Hpres, Ho; [auto | exact Hne | apply nth_error_Some; congruence].
Qed.

(** What is filed in a table of leaves reads the same. *)
Lemma preserved_filed_leaf sub q :
  string_keys st sub ->
  Forall (fun kv => leaf_at st (snd kv)) sub ->
  filed_object st' sub q = filed_object st sub q.
Proof.
  intros Hkeys Hleaves. unfold filed_object.
  rewrite (find_entry_kept st st') by auto using preserved_strings.
  destruct (find_entry st q sub) as [v|] eqn:Hfind; [|reflexivity].
  destruct (find_entry_In_pair _ _ _ _ Hfind) as [k Hin].
  rewrite Forall_forall in Hleaves.
  destruct (Hleaves _ Hin) as (o & Ho & Hleaf). cbn [snd] in Ho.
  rewrite Ho. now apply preserved_object.
Qed.

End Preserved.

Lemma string_keys_set st key ko v table :
  string_at st ko = Some key -> string_keys st table ->
  string_keys st (set_entry st key ko v table).
Proof.
  intros Hko Hkeys. induction Hkeys as [|[k v0] table [s Hs] H IH]; simpl.
  - constructor; [|constructor]. exists key. exact Hko.
  - simpl in Hs. rewrite Hs. destruct (String.eqb s key).
    + constructor; [exists s; exact Hs | exact H].
    + constructor; [exists s; exact Hs | exact IH].
Qed.

Lemma values_set (P : ref -> Prop) st key ko v table :
  P v -> Forall (fun kv => P (snd kv)) table ->
  Forall (fun kv => P (snd kv)) (set_entry st key ko v table).
Proof.
  intros Hv Hall. induction Hall as [|[k v0] table Hkv H IH]; simpl.
  - constructor; [exact Hv | constructor].
  - destruct (string_at st k) as [s|].
    + destruct (String.eqb s key); constructor; auto.
    + constructor; auto.
Qed.


Lemma find_entry_app st key t1 t2 :
  find_entry st key (t1 ++ t2)
  = match find_entry st key t1 with
    | Some v => Some v
    | None => find_entry st key t2
    end.
Proof.
  induction t1 as [|[k v] t1 IH]; simpl; [reflexivity|].
  destruct (string_at st k) as [s|]; [destruct (String.eqb s key)|]; auto.
Qed.

Lemma NoDup_snoc {A : Type} (l : list A) (x : A) :
  NoDup l -> ~ In x l -> NoDup (l ++ [x]).
Proof.
  intros Hnd Hx. induction Hnd as [|a l Ha Hnd IH]; simpl.
  - constructor; [auto | constructor].
  - constructor.
    + rewrite in_app_iff. simpl. intros [H|[H|[]]]; [auto | subst; apply Hx; left; reflexivity].
    + apply IH. intros H. apply Hx. right. exact H.
Qed.

(** What a well-formed tree files under a key. *)
Lemma well_formed_entry st d table key v :
  Forall (fun kv =>
            snd kv <> d
            /\ exists sub,
                dict_at st (snd kv) = Some sub
                /\ string_keys st sub
                /\ Forall (fun kv2 => leaf_at st (snd kv2)) sub) table ->
  find_entry st key table = Some v ->
  v <> d
  /\ exists sub,
      dict_at st v = Some sub
      /\ string_keys st sub
      /\ Forall (fun kv2 => leaf_at st (snd kv2)) sub.
Proof.
  intros Hall Hfind. destruct (find_entry_In_pair _ _ _ _ Hfind) as [k Hin].
  rewrite Forall_forall in Hall. exact (Hall _ Hin).
Qed.

Lemma dict_at_nth st p t :
  dict_at st p = Some t <-> nth_error (objects st) p = Some (DictObject t).
Proof.
  unfold dict_at. destruct (nth_error (objects st) p) as [[]|]; split;
    intros H; try discriminate; congruence.
Qed.

Lemma dict_at_lt st p t : dict_at st p = Some t -> p < List.length (objects st).
Proof.
  intros H. apply dict_at_nth in H. apply nth_error_Some. congruence.
Qed.


Lemma decoded_present st d table key q obj vd sub :
  dict_at st d = Some table ->
  string_keys st table ->
  NoDup (map snd table) ->
  Forall (fun kv =>
            snd kv <> d
            /\ exists sub,
                dict_at st (snd kv) = Some sub
                /\ string_keys st sub
                /\ Forall (fun kv2 => leaf_at st (snd kv2)) sub) table ->
  (forall t, obj <> DictObject t) ->
  find_entry st key table = Some vd ->
  dict_at st vd = Some sub ->
  let n := List.length (objects st) in
  let st3 := mkStore (objects st ++ [StringObject key; StringObject q; obj]) [] in
  decoded_into st
    (mkStore (list_update vd (DictObject (set_entry st3 q (n + 1) (n + 2) sub))
                          (objects st3)) [])
    d key q obj.
Proof.
  intros Hd Hkeys Hnd Hall Hobj Hfind Hvd n st3.
  set (st' := mkStore _ _).
  destruct (well_formed_entry _ _ _ _ _ Hall Hfind)
    as (Hvd_d & sub0 & Hvd0 & Hsubkeys & Hleaves).
  assert (sub0 = sub) as -> by congruence. clear Hvd0.
  pose proof (dict_at_lt _ _ _ Hvd) as Hvdn. fold n in Hvdn.
  pose proof (dict_at_lt _ _ _ Hd) as Hdn. fold n in Hdn.
  assert (preserves st st' vd) as Hpres.
  { intros p Hp Hlt. unfold st', st3. cbn [objects].
    rewrite nth_error_list_update_neq by congruence.
    now rewrite nth_error_app1. }
  pose proof (preserved_strings st st' vd sub Hpres Hvd) as Hks.
  assert (string_at st' (n + 1) = Some q) as Hq'.
  { unfold string_at, st', st3, n. cbn [objects].
    rewrite nth_error_list_update_neq by (fold n; lia).
    rewrite nth_error_app_offset. reflexivity. }
  assert (nth_error (objects st') (n + 2) = Some obj) as Hobj'.
  { unfold st', st3, n. cbn [objects].
    rewrite nth_error_list_update_neq by (fold n; lia).
    rewrite nth_error_app_offset. reflexivity. }
  assert (set_entry st3 q (n + 1) (n + 2) sub
          = set_entry st' q (n + 1) (n + 2) sub) as Hset.
  { rewrite (set_entry_kept st st3), (set_entry_kept st st'); auto.
    apply keeps_strings_app. }
  assert (dict_at st' vd = Some (set_entry st' q (n + 1) (n + 2) sub)) as Hvd'.
  { apply dict_at_nth. unfold st' at 1. cbn [objects]. rewrite Hset.
    apply nth_error_list_update_eq. unfold st3. cbn [objects].
    rewrite length_app. fold n. lia. }
  assert (dict_at st' d = Some table) as Hd'
      by (eapply preserved_dict; eauto).
  assert (forall k, find_entry st' k table = find_entry st k table) as Hfind'
      by (intros k; apply find_entry_kept; assumption).
  assert (leaf_at st' (n + 2)) as Hleaf' by (exists obj; auto).
  repeat split.
  - (* well-formed *)
    exists table. split; [exact Hd'|]. split; [eauto using string_keys_kept|].
    split; [exact Hnd|].
    revert Hall. apply Forall_impl. intros [k v]. cbn [snd fst].
    intros (Hv_d & subv & Hv & Hvkeys & Hvleaves). split; [exact Hv_d|].
    destruct (Nat.eq_dec v vd) as [->|Hne].
    + assert (subv = sub) as -> by congruence.
      exists (set_entry st' q (n + 1) (n + 2) sub). split; [exact Hvd'|].
      split.
      * apply string_keys_set; eauto using string_keys_kept.
      * apply (values_set (leaf_at st')); [exact Hleaf'|].
        revert Hleaves. apply Forall_impl. intros kv.
        eapply preserved_leaf; eauto.
    + exists subv. split; [eapply preserved_dict; eauto|].
      split; [eauto using string_keys_kept|].
      revert Hvleaves. apply Forall_impl. intros kv.
      eapply preserved_leaf; eauto.
  - (* the object is filed *)
    unfold tree_lookup, filed_object. rewrite Hd', Hfind', Hfind.
    apply dict_at_nth in Hvd'. rewrite Hvd'.
    rewrite (find_entry_set_same _ _ _ _ _ Hq'). exact Hobj'.
  - (* nothing else changes *)
    intros key' q' Hother. unfold tree_lookup. rewrite Hd', Hd.
    unfold filed_object at 1 3. rewrite Hfind'.
    destruct (find_entry st key' table) as [v|] eqn:Hv; [|reflexivity].
    destruct (well_formed_entry _ _ _ _ _ Hall Hv)
      as (Hv_d & subv & Hvdict & Hvkeys & Hvleaves).
    rewrite (proj1 (dict_at_nth _ _ _) Hvdict).
    destruct (Nat.eq_dec v vd) as [->|Hne].
    + assert (subv = sub) as -> by congruence.
      rewrite (proj1 (dict_at_nth _ _ _) Hvd').
      assert (q' <> q) as Hq.
      { destruct Hother as [Hk|Hq]; [|exact Hq]. exfalso.
        eapply (find_entry_distinct st key' key table vd vd); eauto. }
      unfold filed_object at 1.
      rewrite (find_entry_set_other _ _ _ _ _ _ Hq' Hq).
      apply (preserved_filed_leaf st st' vd sub); assumption.
    + rewrite (proj1 (dict_at_nth _ _ _)
                 (preserved_dict st st' vd Hpres v subv Hne Hvdict)).
      apply (preserved_filed_leaf st st' vd sub); assumption.
Qed.


Lemma decoded_absent st d table key q obj :
  dict_at st d = Some table ->
  string_keys st table ->
  NoDup (map snd table) ->
  Forall (fun kv =>
            snd kv <> d
            /\ exists sub,
                dict_at st (snd kv) = Some sub
                /\ string_keys st sub
                /\ Forall (fun kv2 => leaf_at st (snd kv2)) sub) table ->
  (forall t, obj <> DictObject t) ->
  find_entry st key table = None ->
  let n := List.length (objects st) in
  let st3 := mkStore (objects st ++ [StringObject key; StringObject q; obj]) [] in
  decoded_into st
    (mkStore
       (list_update (n + 3) (DictObject [(n + 1, n + 2)])
          (list_update d (DictObject (table ++ [(n, n + 3)]))
             (objects st3 ++ [DictObject []])))
       [])
    d key q obj.
Proof.
  intros Hd Hkeys Hnd Hall Hobj Hfind n st3.
  set (st' := mkStore _ _).
  pose proof (dict_at_lt _ _ _ Hd) as Hdn. fold n in Hdn.
  assert (objects st3 ++ [DictObject []]
          = objects st ++ [StringObject key; StringObject q; obj; DictObject []])%list
    as Hobjs by (unfold st3; cbn [objects]; now rewrite <- app_assoc).
  assert (forall i, i <> 3 ->
            nth_error (objects st') (n + i)
            = nth_error [StringObject key; StringObject q; obj; DictObject []] i)
    as Hnew.
  { intros i H3. unfold st'. cbn [objects].
    rewrite nth_error_list_update_neq by lia.
    rewrite nth_error_list_update_neq by lia.
    rewrite Hobjs. unfold n. apply nth_error_app_offset. }
  assert (preserves st st' d) as Hpres.
  { intros p Hp Hlt. unfold st'. cbn [objects].
    rewrite nth_error_list_update_neq by (fold n in Hlt; lia).
    rewrite nth_error_list_update_neq by congruence.
    rewrite Hobjs. now rewrite nth_error_app1. }
  pose proof (preserved_strings st st' d table Hpres Hd) as Hks.
  assert (string_at st' n = Some key) as Hkey'.
  { unfold string_at. rewrite <- (Nat.add_0_r n).
    rewrite (Hnew 0) by lia. reflexivity. }
  assert (string_at st' (n + 1) = Some q) as Hq'.
  { unfold string_at. rewrite (Hnew 1) by lia. reflexivity. }
  assert (nth_error (objects st') (n + 2) = Some obj) as Hobj'.
  { rewrite (Hnew 2) by lia. reflexivity. }
  assert (dict_at st' (n + 3) = Some [(n + 1, n + 2)]) as Hsub'.
  { apply dict_at_nth. unfold st'. cbn [objects].
    apply nth_error_list_update_eq. rewrite length_list_update, Hobjs.
    rewrite length_app. fold n. cbn [List.length]. lia. }
  assert (dict_at st' d = Some (table ++ [(n, n + 3)])%list) as Hd'.
  { apply dict_at_nth. unfold st'. cbn [objects].
    rewrite nth_error_list_update_neq by lia.
    apply nth_error_list_update_eq. rewrite Hobjs, length_app. fold n. lia. }
  assert (forall k, find_entry st' k table = find_entry st k table) as Hfind'
      by (intros k; apply find_entry_kept; assumption).
  assert (leaf_at st' (n + 2)) as Hleaf' by (exists obj; auto).
  repeat split.
  - (* well-formed *)
    exists (table ++ [(n, n + 3)])%list. split; [exact Hd'|]. split; [|split].
    + apply Forall_app. split; [exact (string_keys_kept _ _ _ Hks Hkeys)|].
      constructor; [|constructor]. exists key. exact Hkey'.
    + rewrite map_app. cbn [map snd]. apply NoDup_snoc; [exact Hnd|].
      intros Hin. apply in_map_iff in Hin as ([k v] & Hv & Hin).
      cbn [snd] in Hv. subst v. rewrite Forall_forall in Hall.
      destruct (Hall _ Hin) as (_ & subv & Hsubv & _). cbn [snd] in Hsubv.
      apply dict_at_lt in Hsubv. fold n in Hsubv. lia.
    + apply Forall_app. split.
      * revert Hall. apply Forall_impl. intros [k v]. cbn [snd fst].
        intros (Hv_d & subv & Hv & Hvkeys & Hvleaves). split; [exact Hv_d|].
        exists subv. split; [eapply preserved_dict; eauto|].
        split; [exact (string_keys_kept _ _ _ Hks Hvkeys)|].
        revert Hvleaves. apply Forall_impl. intros kv.
        eapply preserved_leaf; eauto.
      * constructor; [|constructor]. cbn [snd]. split; [lia|].
        exists [(n + 1, n + 2)]. split; [exact Hsub'|]. split.
        -- constructor; [|constructor]. exists q. exact Hq'.
        -- constructor; [exact Hleaf' | constructor].
  - (* the object is filed *)
    unfold tree_lookup, filed_object. rewrite Hd', find_entry_app, Hfind', Hfind.
    cbn [find_entry]. rewrite Hkey', String.eqb_refl.
    apply dict_at_nth in Hsub'. rewrite Hsub'.
    cbn [find_entry]. rewrite Hq', String.eqb_refl. exact Hobj'.
  - (* nothing else changes *)
    intros key' q' Hother. unfold tree_lookup. rewrite Hd', Hd.
    unfold filed_object at 1 3. rewrite find_entry_app, Hfind'.
    destruct (find_entry st key' table) as [v|] eqn:Hv.
    + destruct (well_formed_entry _ _ _ _ _ Hall Hv)
        as (Hv_d & subv & Hvdict & Hvkeys & Hvleaves).
      rewrite (proj1 (dict_at_nth _ _ _) Hvdict).
      rewrite (proj1 (dict_at_nth _ _ _)
                 (preserved_dict st st' d Hpres v subv Hv_d Hvdict)).
      apply (preserved_filed_leaf st st' d table); assumption.
    + cbn [find_entry]. rewrite Hkey'.
      destruct (String.eqb_spec key key') as [<-|Hk]; [|reflexivity].
      rewrite (proj1 (dict_at_nth _ _ _) Hsub').
      unfold filed_object. cbn [find_entry]. rewrite Hq'.
      destruct (String.eqb_spec q q') as [<-|Hq]; [|reflexivity].
      destruct Hother; congruence.
Qed.

(** A decoding that succeeds files the object under the key and the
    qualifier, keeps the tree well formed and changes nothing else of it. *)
Lemma DecodeAssignment_effect st d name value key q t obj :
  well_formed st d ->
  faults st = [] ->
  decode name = Ok (mkAssgn key q t) ->
  converted value t = Some obj ->
  fst (DecodeAssignment d name value st) = Ok 0%Z
  /\ decoded_into st (snd (DecodeAssignment d name value st)) d
                  (c_str key) (c_str q) obj.
Proof.
  intros (table & Hd & Hkeys & Hnd & Hall) Hf Hdec Hconv.
  assert (forall vd, find_entry st (c_str key) table = Some vd ->
                     exists sub, dict_at st vd = Some sub) as Hsub.
  { intros vd Hvd.
    destruct (well_formed_entry _ _ _ _ _ Hall Hvd) as (_ & sub & Hs & _).
    eauto. }
  rewrite (DecodeAssignment_run st d name value key q t obj table
             Hd Hkeys Hsub Hf Hdec Hconv).
  cbn [fst snd]. split; [reflexivity|].
  pose proof (converted_not_dict _ _ _ Hconv) as Hobj.
  destruct (find_entry st (c_str key) table) as [vd|] eqn:Hfind.
  - destruct (Hsub vd eq_refl) as [sub Hvd]. rewrite Hvd.
    now apply decoded_present with (table := table).
  - now apply decoded_absent.
Qed.


Lemma well_formed_empty_tree : well_formed empty_tree 0.
Proof.
  exists []. repeat split; constructor.
Qed.

(** Until the conversion [DecodeAssignment] has made the two strings. *)
Lemma DecodeAssignment_conversion_fails st d name value key q t f :
  faults st = [] ->
  decode name = Ok (mkAssgn key q t) ->
  (forall st', ConvertBufferValue value t st' = (Fail f, st')) ->
  DecodeAssignment d name value st
  = (Fail f,
     mkStore (objects st ++ [StringObject (c_str key); StringObject (c_str q)])
             []).
Proof.
  intros Hf Hdec Hconv.
  unfold DecodeAssignment. cbn [bind ret Monad_D lift].
  change (DecodeArrayName name (mkAssgn "" "" "b")) with (decode name).
  rewrite Hdec. cbn [assgn_key assgn_value assgn_type].
  unfold PyString_FromString.
  rewrite (construct_ok _ st Hf).
  rewrite construct_ok by reflexivity. cbn [objects].
  rewrite Hconv. rewrite <- app_assoc. reflexivity.
Qed.

Lemma ConvertBufferValue_size_refused value t st :
  (t = "i"%char /\ String.length value <> 4)
  \/ (t = "l"%char /\ Z.of_nat (String.length value) <> sizeof_Py_ssize_t) ->
  ConvertBufferValue value t st
  = (Fail (AssertionFailed "Invalid content size"), st).
Proof.
  unfold ConvertBufferValue. intros [[-> Hlen]|[-> Hlen]]; cbn [Ascii.eqb Bool.eqb].
  - destruct (Z.eqb_spec (Z.of_nat (String.length value)) 4) as [E|_];
      [lia | reflexivity].
  - destruct (Z.eqb_spec (Z.of_nat (String.length value)) sizeof_Py_ssize_t)
      as [E|_]; [contradiction | reflexivity].
Qed.

Lemma ConvertBufferValue_type_refused value t st :
  (forall tag, t <> tag_char tag) ->
  ConvertBufferValue value t st
  = (Fail (AssertionFailed "Invalid assignment type"), st).
Proof.
  intros Ht. unfold ConvertBufferValue.
  destruct (Ascii.eqb_spec t "i") as [E|_]; [elim (Ht Integer E)|].
  destruct (Ascii.eqb_spec t "l") as [E|_]; [elim (Ht PlatformSizeInteger E)|].
  destruct (Ascii.eqb_spec t "s") as [E|_]; [elim (Ht ByteString E)|].
  destruct (Ascii.eqb_spec t "u") as [E|_]; [elim (Ht UnicodeString E)|].
  destruct (Ascii.eqb_spec t "b") as [E|_]; [elim (Ht ByteArray E)|].
  reflexivity.
Qed.

(** *** Little-endian contents *)

Lemma length_le_bytes n z : String.length (le_bytes n z) = n.
Proof.
  revert z; induction n as [|n IH]; intros z; simpl; [reflexivity|].
  now rewrite IH.
Qed.

Lemma byte_value_of_mod z :
  byte_value (ascii_of_N (Z.to_N (z mod 256))) = (z mod 256)%Z.
Proof.
  unfold byte_value.
  pose proof (Z.mod_pos_bound z 256 ltac:(lia)) as Hb.
  rewrite N_ascii_embedding by lia.
  apply Z2N.id. lia.
Qed.

Lemma le_unsigned_le_bytes n z :
  le_unsigned (le_bytes n z) = (z mod 256 ^ Z.of_nat n)%Z.
Proof.
  revert z; induction n as [|n IH]; intros z.
  - simpl. now rewrite Z.mod_1_r.
  - cbn [le_bytes le_unsigned]. rewrite byte_value_of_mod, IH.
    rewrite Nat2Z.inj_succ, Z.pow_succ_r by lia.
    rewrite Z.rem_mul_r by lia. reflexivity.
Qed.

Lemma le_signed_le_bytes n z :
  0 < n ->
  (- 2 ^ (8 * Z.of_nat n - 1) <= z < 2 ^ (8 * Z.of_nat n - 1))%Z ->
  le_signed (le_bytes n z) = z.
Proof.
  intros Hn Hz. unfold le_signed, wrap_signed.
  rewrite length_le_bytes, le_unsigned_le_bytes.
  set (b := (8 * Z.of_nat n)%Z) in *.
  assert (256 ^ Z.of_nat n = 2 ^ b)%Z as ->.
  { unfold b. change 256%Z with (2 ^ 8)%Z. rewrite <- Z.pow_mul_r by lia.
    reflexivity. }
  assert (2 ^ b = 2 * 2 ^ (b - 1))%Z as Hb.
  { rewrite <- Z.pow_succ_r by lia. f_equal. lia. }
  rewrite Zplus_mod_idemp_l.
  rewrite Z.mod_small by lia. lia.
Qed.

End Facts.

(** ** What decoding does to the tree *)

Section DecodingProperties.

Context {platform : Platform}.

(** X17.  Into a well-formed tree, with no allocation failing, a name that
    decodes to [(key, q, t)] and contents that [ConvertBufferValue] accepts
    for [t]: [DecodeAssignment] returns 0, and the object converted from the
    contents is then filed under the C string of [q] in the dictionary filed
    under the C string of [key]. *)
Theorem DecodeAssignment_files st d name value key q t obj :
  well_formed st d ->
  faults st = [] ->
  decode name = Ok (mkAssgn key q t) ->
  converted value t = Some obj ->
  let run := DecodeAssignment d name value st in
  fst run = Ok 0%Z
  /\ tree_lookup (snd run) d (c_str key) (c_str q) = Some obj.
Proof.
  intros Hwf Hf Hdec Hconv run.
  destruct (DecodeAssignment_effect st d name value key q t obj
              Hwf Hf Hdec Hconv) as (Hres & _ & _ & Hfiled & _).
  split; [exact Hres | exact Hfiled].
Qed.

(** X18.  Such a decoding changes nothing else of the tree: what is filed
    under another key, or under another qualifier of the same key, reads as
    before. *)
Theorem DecodeAssignment_frame st d name value key q t obj key' q' :
  well_formed st d ->
  faults st = [] ->
  decode name = Ok (mkAssgn key q t) ->
  converted value t = Some obj ->
  key' <> c_str key \/ q' <> c_str q ->
  tree_lookup (snd (DecodeAssignment d name value st)) d key' q'
  = tree_lookup st d key' q'.
Proof.
  intros Hwf Hf Hdec Hconv Hother.
  destruct (DecodeAssignment_effect st d name value key q t obj
              Hwf Hf Hdec Hconv) as (_ & _ & _ & _ & Hframe).
  apply Hframe, Hother.
Qed.

(** X19.  Such a decoding leaves a well-formed tree and no allocation failure
    pending, so that decodings can follow one another on the same
    dictionary. *)
Theorem DecodeAssignment_invariant st d name value key q t obj :
  well_formed st d ->
  faults st = [] ->
  decode name = Ok (mkAssgn key q t) ->
  converted value t = Some obj ->
  let run := DecodeAssignment d name value st in
  well_formed (snd run) d /\ faults (snd run) = [].
Proof.
  intros Hwf Hf Hdec Hconv run.
  destruct (DecodeAssignment_effect st d name value key q t obj
              Hwf Hf Hdec Hconv) as (_ & Hf' & Hwf' & _).
  split; [exact Hwf' | exact Hf'].
Qed.

(** X20.  Two decodings in a row: the second object is filed under its key
    and qualifier, and the first one still is under its own unless the two
    names have the same key and the same qualifier, where the second
    replaces the first. *)
Theorem DecodeAssignment_sequence st d
        name1 value1 key1 q1 t1 obj1 name2 value2 key2 q2 t2 obj2 :
  well_formed st d ->
  faults st = [] ->
  decode name1 = Ok (mkAssgn key1 q1 t1) ->
  converted value1 t1 = Some obj1 ->
  decode name2 = Ok (mkAssgn key2 q2 t2) ->
  converted value2 t2 = Some obj2 ->
  let st1 := snd (DecodeAssignment d name1 value1 st) in
  let st2 := snd (DecodeAssignment d name2 value2 st1) in
  tree_lookup st2 d (c_str key2) (c_str q2) = Some obj2
  /\ (c_str key1 <> c_str key2 \/ c_str q1 <> c_str q2 ->
      tree_lookup st2 d (c_str key1) (c_str q1) = Some obj1).
Proof.
  intros Hwf Hf Hdec1 Hconv1 Hdec2 Hconv2 st1 st2.
  destruct (DecodeAssignment_effect st d name1 value1 key1 q1 t1 obj1
              Hwf Hf Hdec1 Hconv1) as (_ & Hf1 & Hwf1 & Hfiled1 & _).
  fold st1 in Hf1, Hwf1, Hfiled1.
  destruct (DecodeAssignment_effect st1 d name2 value2 key2 q2 t2 obj2
              Hwf1 Hf1 Hdec2 Hconv2) as (_ & _ & _ & Hfiled2 & Hframe2).
  fold st2 in Hfiled2, Hframe2.
  split; [exact Hfiled2|].
  intros Hother. rewrite Hframe2 by exact Hother. exact Hfiled1.
Qed.

(** X21.  An integer comes back from its little-endian bytes: for [z] in the
    range of [int32_t], the four bytes of [z] converted with the type ['i']
    make an integer object of value [z]; and for [z] in the range of
    [Py_ssize_t], its [sizeof(Py_ssize_t)] bytes converted with the type
    ['l'] do. *)
Theorem ConvertBufferValue_integer z st :
  faults st = [] ->
  let made := (Ok (Some (List.length (objects st))),
               mkStore (objects st ++ [IntObject z]) []) in
  ((- 2 ^ 31 <= z < 2 ^ 31)%Z ->
   ConvertBufferValue (le_bytes 4 z) "i" st = made)
  /\ ((0 < sizeof_Py_ssize_t)%Z ->
      (- 2 ^ (8 * sizeof_Py_ssize_t - 1) <= z
       < 2 ^ (8 * sizeof_Py_ssize_t - 1))%Z ->
      ConvertBufferValue (le_bytes (Z.to_nat sizeof_Py_ssize_t) z) "l" st
      = made).
Proof.
  intros Hf made. split.
  - intros Hz. apply ConvertBufferValue_converted; [|exact Hf].
    unfold converted. cbn [Ascii.eqb Bool.eqb].
    rewrite length_le_bytes. cbn [Z.of_nat Pos.of_succ_nat Pos.succ Z.eqb Pos.eqb].
    rewrite le_signed_le_bytes; [reflexivity | lia | exact Hz].
  - intros Hpos Hz. apply ConvertBufferValue_converted; [|exact Hf].
    unfold converted. cbn [Ascii.eqb Bool.eqb].
    rewrite length_le_bytes, Z2Nat.id, Z.eqb_refl by lia.
    rewrite le_signed_le_bytes; [reflexivity | lia |].
    rewrite Z2Nat.id by lia. exact Hz.
Qed.

(** X22.  Contents of the wrong size for an integer stop the decoding: for a
    name of type ['i'] and contents that are not four bytes, or a name of
    type ['l'] and contents that are not [sizeof(Py_ssize_t)] bytes,
    [DecodeAssignment] fails on the assertion on the content size, having
    made the two strings and nothing else. *)
Theorem DecodeAssignment_content_size st d name value key q t :
  faults st = [] ->
  decode name = Ok (mkAssgn key q t) ->
  (t = "i"%char /\ String.length value <> 4)
  \/ (t = "l"%char /\ Z.of_nat (String.length value) <> sizeof_Py_ssize_t) ->
  DecodeAssignment d name value st
  = (Fail (AssertionFailed "Invalid content size"),
     mkStore (objects st ++ [StringObject (c_str key); StringObject (c_str q)])
             []).
Proof.
  intros Hf Hdec Hsize.
  apply (DecodeAssignment_conversion_fails st d name value key q t);
    [exact Hf | exact Hdec|].
  intros st'. apply ConvertBufferValue_size_refused, Hsize.
Qed.

(** X23.  [ConvertBufferValue] fails on the assertion on the assignment type
    exactly for the characters that are the code of no tag, and a name that
    decodes to such a type stops [DecodeAssignment] on that assertion. *)
Theorem DecodeAssignment_invalid_type st d name value key q t :
  (fst (ConvertBufferValue value t st)
   = Fail (AssertionFailed "Invalid assignment type")
   <-> forall tag, t <> tag_char tag)
  /\ (faults st = [] ->
      decode name = Ok (mkAssgn key q t) ->
      (forall tag, t <> tag_char tag) ->
      fst (DecodeAssignment d name value st)
      = Fail (AssertionFailed "Invalid assignment type")).
Proof.
  split; [split|].
  - intros Hfail tag ->.
    unfold ConvertBufferValue, PyInt_FromLong, PyInt_FromSsize_t,
      PyString_FromStringAndSize, PyUnicode_FromUnicode,
      PyByteArray_FromStringAndSize, construct, alloc_fault, assert in Hfail.
    destruct tag; cbn [tag_char Ascii.eqb Bool.eqb bind ret Monad_D lift assert]
      in Hfail;
      repeat match type of Hfail with
             | context [if ?c then _ else _] => destruct c
             | context [match faults ?s with _ => _ end] =>
                 destruct (faults s) as [|[] ?]
             end;
      cbn in Hfail; discriminate.
  - intros Ht. now rewrite ConvertBufferValue_type_refused.
  - intros Hf Hdec Ht.
    rewrite (DecodeAssignment_conversion_fails st d name value key q t
               (AssertionFailed "Invalid assignment type") Hf Hdec);
      [reflexivity|].
    intros st'. apply ConvertBufferValue_type_refused, Ht.
Qed.

(** X24.  When the allocation of the key string, of the qualifier string or
    of the converted object fails, [DecodeAssignment] returns -1 and the
    objects there were are as they were: at most new ones were made. *)
Theorem DecodeAssignment_no_memory st d name value a l :
  decode name = Ok a ->
  faults st = true :: l
  \/ faults st = false :: true :: l
  \/ (faults st = false :: false :: true :: l
      /\ converted value (assgn_type a) <> None) ->
  let run := DecodeAssignment d name value st in
  fst run = Ok (-1)%Z
  /\ exists new, objects (snd run) = (objects st ++ new)%list.
Proof.
  intros Hdec Hfaults run. subst run.
  unfold DecodeAssignment. cbn [bind ret Monad_D lift].
  change (DecodeArrayName name (mkAssgn "" "" "b")) with (decode name).
  rewrite Hdec.
  unfold PyString_FromString, construct, alloc_fault.
  cbn [bind ret Monad_D].
  destruct Hfaults as [Hf|[Hf|[Hf Hconv]]]; rewrite Hf; cbn [faults objects NULL].
  - destruct l as [|[] l']; cbn [fst snd objects]; split; try reflexivity;
      eexists; try reflexivity.
    symmetry; apply app_nil_r.
  - cbn [fst snd objects]. split; [reflexivity|]. eexists; reflexivity.
  - unfold converted in Hconv.
    unfold ConvertBufferValue, PyInt_FromLong, PyInt_FromSsize_t,
      PyString_FromStringAndSize, PyUnicode_FromUnicode,
      PyByteArray_FromStringAndSize, construct, alloc_fault, assert.
    repeat match type of Hconv with
           | context [if ?c then _ else _] => destruct c
           end;
      try (elim Hconv; reflexivity);
      cbn [bind ret Monad_D lift fst snd faults objects NULL];
      (split; [reflexivity|]); rewrite <- app_assoc; eexists; reflexivity.
Qed.

(** X25.  A name built as [MakeConcolicBuffer] builds them decodes to where it
    came from: for C strings [base] and [qualifier], the qualifier not empty
    and free of ['.'], and a name within the 255 bytes, decoding
    [encode base qualifier tag] with contents accepted for the tag files the
    converted object under [qualifier] in the dictionary of [base]. *)
Theorem DecodeAssignment_encoded st d base qualifier tag value obj :
  is_c_string base = true ->
  is_c_string qualifier = true ->
  qualifier <> ""%string ->
  StdString.occurs "." qualifier = false ->
  String.length base + 3 + String.length qualifier <= 255 ->
  well_formed st d ->
  faults st = [] ->
  converted value (tag_char tag) = Some obj ->
  let run := DecodeAssignment d (encode base qualifier tag) value st in
  fst run = Ok 0%Z /\ tree_lookup (snd run) d base qualifier = Some obj.
Proof.
  intros Hb Hq Hne Hdot Hlen Hwf Hf Hconv run.
  assert (decode (encode base qualifier tag)
          = Ok (mkAssgn base qualifier (tag_char tag))) as Hdec.
  { rewrite encode_fits by assumption.
    apply decode_tagged; auto using tag_char_not_dot. }
  destruct (DecodeAssignment_effect st d _ value _ _ _ obj Hwf Hf Hdec Hconv)
    as (Hres & _ & _ & Hfiled & _).
  rewrite (c_str_id _ Hb), (c_str_id _ Hq) in Hfiled.
  split; [exact Hres | exact Hfiled].
Qed.

(** What [MakeConcolicInt] issues when it goes through. *)
Lemma MakeConcolicInt_log target name max_value min_value value w :
  engine_active w = true ->
  points_to w target (PyIntObject value) ->
  (max_value < min_value \/ min_value <= value <= max_value)%Z ->
  s2e_log (snd (MakeConcolicInt target name max_value min_value w))
  = (s2e_log w
     ++ make_concolic (LocalLong value) (to_int sizeof_long)
                      (encode name "value" Integer)
     :: (if (max_value >=? min_value)%Z
         then [assume (Ge (LocalLong value) min_value);
               assume (Le (LocalLong value) max_value)]
         else []))%list.
Proof.
  intros Ha [rc Ht] Hrange.
  apply engine_active_flag in Ha as [Hf Hv].
  unfold encode. unfold_session.
  step. rewrite Ht. step. rewrite Hf, Hv, Ht. step.
  destruct Hrange as [Hlt|Hin].
  - case_cond. step.
    destruct (alloc_faults w) as [|[] l]; step; reflexivity.
  - do 3 case_cond. step. repeat (rewrite Hf; step).
    destruct (alloc_faults w) as [|[] l]; step; now rewrite <- !app_assoc.
Qed.

(** X26.  The buffer [MakeConcolicInt] registers for an integer has the
    [sizeof(long)] bytes of the value and the type ['i'] in its name, and
    [ConvertBufferValue] takes contents of the type ['i'] when they are four
    bytes: contents of the size of that buffer make an integer object where
    [long] has four bytes, and fail the assertion on the content size where
    it has not. *)
Theorem MakeConcolicInt_buffer_size target name max_value min_value value w
        contents st :
  engine_active w = true ->
  points_to w target (PyIntObject value) ->
  (max_value < min_value \/ min_value <= value <= max_value)%Z ->
  (sizeof_long < 2 ^ 31)%Z ->
  Z.of_nat (String.length contents) = sizeof_long ->
  faults st = [] ->
  In (make_concolic (LocalLong value) sizeof_long
                    (encode name "value" Integer))
     (s2e_log (snd (MakeConcolicInt target name max_value min_value w)))
  /\ (sizeof_long = 4%Z ->
      ConvertBufferValue contents (tag_char Integer) st
      = (Ok (Some (List.length (objects st))),
         mkStore (objects st ++ [IntObject (le_signed contents)]) []))
  /\ (sizeof_long <> 4%Z ->
      ConvertBufferValue contents (tag_char Integer) st
      = (Fail (AssertionFailed "Invalid content size"), st)).
Proof.
  intros Ha Ht Hrange Hsmall Hlen Hf. split; [|split].
  - rewrite (MakeConcolicInt_log _ _ _ _ _ _ Ha Ht Hrange).
    apply in_or_app. right. left.
    unfold to_int. rewrite wrap_signed_small by lia. reflexivity.
  - intros H4. apply ConvertBufferValue_converted; [|exact Hf].
    unfold converted. cbn [tag_char Ascii.eqb Bool.eqb].
    rewrite Hlen, H4. reflexivity.
  - intros H4. apply ConvertBufferValue_size_refused. left.
    split; [reflexivity | lia].
Qed.

End DecodingProperties.

Lemma well_formed_sample_tree : well_formed sample_tree 0.
Proof.
  exists [(1, 4)]. split; [reflexivity|]. split; [|split].
  - constructor; [|constructor]. exists "a". reflexivity.
  - constructor; [intros [] | constructor].
  - constructor; [|constructor]. split; [discriminate|].
    exists [(2, 3)]. split; [reflexivity|]. split.
    + constructor; [|constructor]. exists "x". reflexivity.
    + constructor; [|constructor]. exists (IntObject 7).
      split; [reflexivity | discriminate].
Qed.

Lemma DecodeAssignment_files_witness :
  let run :=
    DecodeAssignment (platform := lp64) 0 "a.i#y" (le_bytes 4 (-11)) sample_tree
  in
  fst run = Ok 0%Z /\ tree_lookup (snd run) 0 "a" "y" = Some (IntObject (-11)).
Proof.
  apply (DecodeAssignment_files (platform := lp64) sample_tree 0 "a.i#y"
           (le_bytes 4 (-11)) "a" "y" "i" (IntObject (-11)));
    [exact well_formed_sample_tree | reflexivity | reflexivity | reflexivity].
Defined.

Lemma DecodeAssignment_frame_witness :
  tree_lookup
    (snd (DecodeAssignment (platform := lp64) 0 "a.i#y" (le_bytes 4 (-11))
                           sample_tree))
    0 "a" "x"
  = tree_lookup sample_tree 0 "a" "x".
Proof.
  apply (DecodeAssignment_frame (platform := lp64) sample_tree 0 "a.i#y"
           (le_bytes 4 (-11)) "a" "y" "i" (IntObject (-11)) "a" "x");
    [exact well_formed_sample_tree | reflexivity | reflexivity | reflexivity
    | right; discriminate].
Defined.

Lemma DecodeAssignment_invariant_witness :
  let run :=
    DecodeAssignment (platform := lp64) 0 "b.s#v" "hello" sample_tree in
  well_formed (snd run) 0 /\ faults (snd run) = [].
Proof.
  apply (DecodeAssignment_invariant (platform := lp64) sample_tree 0 "b.s#v"
           "hello" "b" "v" "s" (StringObject "hello"));
    [exact well_formed_sample_tree | reflexivity | reflexivity | reflexivity].
Defined.

Lemma DecodeAssignment_sequence_witness :
  let st1 :=
    snd (DecodeAssignment (platform := lp64) 0 "a.i#x" (le_bytes 4 9)
                          sample_tree) in
  let st2 := snd (DecodeAssignment (platform := lp64) 0 "b.s#v" "hello" st1) in
  tree_lookup st2 0 "b" "v" = Some (StringObject "hello")
  /\ tree_lookup st2 0 "a" "x" = Some (IntObject 9).
Proof.
  destruct (DecodeAssignment_sequence (platform := lp64) sample_tree 0
              "a.i#x" (le_bytes 4 9) "a" "x" "i" (IntObject 9)
              "b.s#v" "hello" "b" "v" "s" (StringObject "hello")
              well_formed_sample_tree eq_refl eq_refl eq_refl eq_refl eq_refl)
    as [Hsecond Hfirst].
  split; [exact Hsecond | apply Hfirst; left; discriminate].
Defined.

Lemma ConvertBufferValue_integer_witness :
  ConvertBufferValue (platform := lp64) (le_bytes 4 (-11)) "i" empty_tree
  = (Ok (Some 1), mkStore [DictObject []; IntObject (-11)] [])
  /\ ConvertBufferValue (platform := lp64) (le_bytes 8 (-11)) "l" empty_tree
     = (Ok (Some 1), mkStore [DictObject []; IntObject (-11)] []).
Proof.
  destruct (ConvertBufferValue_integer (platform := lp64) (-11) empty_tree
              eq_refl) as [Hi Hl].
  split; [apply Hi | apply Hl]; cbn; lia.
Defined.

Lemma DecodeAssignment_content_size_witness :
  DecodeAssignment (platform := lp64) 0 "a.i#x" (le_bytes 8 7) empty_tree
  = (Fail (AssertionFailed "Invalid content size"),
     mkStore [DictObject []; StringObject "a"; StringObject "x"] []).
Proof.
  apply (DecodeAssignment_content_size (platform := lp64) empty_tree 0 "a.i#x"
           (le_bytes 8 7) "a" "x" "i");
    [reflexivity | reflexivity | left; split; [reflexivity | discriminate]].
Defined.

Lemma DecodeAssignment_invalid_type_witness :
  fst (DecodeAssignment (platform := lp64) 0 "a.x#y" "hello" empty_tree)
  = Fail (AssertionFailed "Invalid assignment type").
Proof.
  apply (proj2 (DecodeAssignment_invalid_type (platform := lp64) empty_tree 0
                  "a.x#y" "hello" "a" "y" "x"));
    [reflexivity | reflexivity | intros []; discriminate].
Defined.

Lemma DecodeAssignment_no_memory_witness :
  let run :=
    DecodeAssignment (platform := lp64) 0 "a.i#y" (le_bytes 4 7)
                     (mkStore (objects sample_tree) [false; true]) in
  fst run = Ok (-1)%Z
  /\ exists new, objects (snd run) = (objects sample_tree ++ new)%list.
Proof.
  apply (DecodeAssignment_no_memory (platform := lp64)
           (mkStore (objects sample_tree) [false; true]) 0 "a.i#y"
           (le_bytes 4 7) (mkAssgn "a" "y" "i") []);
    [reflexivity | right; left; reflexivity].
Defined.

Lemma DecodeAssignment_encoded_witness :
  let run :=
    DecodeAssignment (platform := lp64) 0 (encode "req.body" "value" ByteString)
                     "hello" sample_tree in
  fst run = Ok 0%Z
  /\ tree_lookup (snd run) 0 "req.body" "value" = Some (StringObject "hello").
Proof.
  apply (DecodeAssignment_encoded (platform := lp64) sample_tree 0 "req.body"
           "value" ByteString "hello" (StringObject "hello"));
    [reflexivity | reflexivity | discriminate | reflexivity | simpl; lia
    | exact well_formed_sample_tree | reflexivity | reflexivity].
Defined.

Lemma MakeConcolicInt_buffer_size_witness :
  In (make_concolic (LocalLong 7) 8 "n.i#value")
     (s2e_log (snd (MakeConcolicInt (platform := lp64) 2 "n" 10 0 sample_world)))
  /\ ConvertBufferValue (platform := lp64) (le_bytes 8 7) "i" empty_tree
     = (Fail (AssertionFailed "Invalid content size"), empty_tree).
Proof.
  destruct (MakeConcolicInt_buffer_size (platform := lp64) 2 "n" 10 0 7
              sample_world (le_bytes 8 7) empty_tree
              eq_refl (ex_intro _ 1%Z eq_refl))
    as (Hin & _ & Hfail);
    [right; lia | cbn; lia | reflexivity | reflexivity|].
  split; [exact Hin | apply Hfail; discriminate].
Defined.
